(** * User registration form: field validator and registration store

    A shallow embedding of the logic of [src/App.tsx]: the field validator
    [validateField], the submit and delete handlers, and the start-up load
    of the list kept under the [registeredUsers] key of [localStorage].

    The platform pieces the component calls are modelled first:
    strings as sequences of UTF-16 code units, the regular expressions
    written in the source, and [JSON.stringify] / [JSON.parse]. *)

From Stdlib Require Import List NArith ZArith Bool Lia String Ascii.
From Stdlib Require Import DecimalString DecimalPos DecimalZ.
Import ListNotations.

Set Implicit Arguments.
Set Warnings "-register-all".

(* ================================================================== *)
(** ** Strings *)
(* ================================================================== *)

Module Str.

(** A JavaScript string is a sequence of 16-bit code units. *)
Definition jsstring := list N.

(** ASCII literals of the source. *)
Definition js (s : string) : jsstring :=
  map N_of_ascii (list_ascii_of_string s).

Definition eqb (a b : jsstring) : bool :=
  if list_eq_dec N.eq_dec a b then true else false.

Definition between (lo hi c : N) : bool := (lo <=? c)%N && (c <=? hi)%N.

Definition is_lower (c : N) : bool := between 97 122 c.
Definition is_upper (c : N) : bool := between 65 90 c.
Definition is_letter (c : N) : bool := is_lower c || is_upper c.
(** [\d] *)
Definition is_digit (c : N) : bool := between 48 57 c.

(** Line terminators: LF, CR, U+2028, U+2029. *)
Definition is_line_terminator (c : N) : bool :=
  (c =? 10)%N || (c =? 13)%N || (c =? 8232)%N || (c =? 8233)%N.

(** [\s], which is also what [trim] strips: WhiteSpace and LineTerminator
    of ECMA-262 (TAB, VT, FF, SP, NBSP, ZWNBSP, the Zs category). *)
Definition is_space (c : N) : bool :=
  between 9 13 c || (c =? 32)%N || (c =? 160)%N || (c =? 5760)%N
  || between 8192 8202 c || (c =? 8232)%N || (c =? 8233)%N
  || (c =? 8239)%N || (c =? 8287)%N || (c =? 12288)%N || (c =? 65279)%N.

Fixpoint trimStart (s : jsstring) : jsstring :=
  match s with
  | c :: t => if is_space c then trimStart t else s
  | [] => []
  end.

Definition trimEnd (s : jsstring) : jsstring := rev (trimStart (rev s)).

(** [String.prototype.trim] *)
Definition trim (s : jsstring) : jsstring := trimEnd (trimStart s).

(** [!value] on a string: only the empty string is falsy. *)
Definition falsy (s : jsstring) : bool :=
  match s with [] => true | _ => false end.

(** [Number.prototype.toString] on an integer (radix 10). *)
Definition toString (z : Z) : jsstring :=
  js (NilZero.string_of_int (Z.to_int z)).

End Str.

(* ================================================================== *)
(** ** Regular expressions *)
(* ================================================================== *)

Module RegExp.
Import Str.

(** The fragment the source uses: character classes, sequence, [?],
    [*] and [+]. *)
Inductive regex : Type :=
| Never
| Empty
| Class (p : N -> bool)
| Seq (r1 r2 : regex)
| Or (r1 r2 : regex)
| Many (r : regex).

Definition Some1 (r : regex) : regex := Seq r (Many r).   (* r+ *)
Definition Opt (r : regex) : regex := Or Empty r.         (* r? *)
Definition Lit (c : N) : regex := Class (N.eqb c).
(** [.] matches any unit but a line terminator. *)
Definition Dot : regex := Class (fun c => negb (is_line_terminator c)).

Fixpoint nullable (r : regex) : bool :=
  match r with
  | Never => false
  | Empty => true
  | Class _ => false
  | Seq r1 r2 => nullable r1 && nullable r2
  | Or r1 r2 => nullable r1 || nullable r2
  | Many _ => true
  end.

Fixpoint deriv (c : N) (r : regex) : regex :=
  match r with
  | Never => Never
  | Empty => Never
  | Class p => if p c then Empty else Never
  | Seq r1 r2 =>
      if nullable r1 then Or (Seq (deriv c r1) r2) (deriv c r2)
      else Seq (deriv c r1) r2
  | Or r1 r2 => Or (deriv c r1) (deriv c r2)
  | Many r1 => Seq (deriv c r1) (Many r1)
  end.

(** [/^r$/.test(s)]: the whole string matches. *)
Fixpoint test_whole (r : regex) (s : jsstring) : bool :=
  match s with
  | [] => nullable r
  | c :: t => test_whole (deriv c r) t
  end.

(** [r] matches some prefix of [s]. *)
Fixpoint matches_at_start (r : regex) (s : jsstring) : bool :=
  nullable r ||
  match s with
  | [] => false
  | c :: t => matches_at_start (deriv c r) t
  end.

(** [/(?=r)/.test(s)]: the pattern is not anchored, so every start index
    is tried; the lookahead holds where [r] matches a prefix of the rest. *)
Fixpoint test_lookahead (r : regex) (s : jsstring) : bool :=
  matches_at_start r s ||
  match s with
  | [] => false
  | _ :: t => test_lookahead r t
  end.

(** The language of a pattern. *)
Inductive Lang : regex -> jsstring -> Prop :=
| L_Empty : Lang Empty []
| L_Class p c : p c = true -> Lang (Class p) [c]
| L_Seq r1 r2 s1 s2 : Lang r1 s1 -> Lang r2 s2 -> Lang (Seq r1 r2) (s1 ++ s2)
| L_OrL r1 r2 s : Lang r1 s -> Lang (Or r1 r2) s
| L_OrR r1 r2 s : Lang r2 s -> Lang (Or r1 r2) s
| L_Many0 r : Lang (Many r) []
| L_ManyS r s1 s2 : Lang r s1 -> Lang (Many r) s2 -> Lang (Many r) (s1 ++ s2).

Create HintDb regexp.
#[export] Hint Constructors Lang : regexp.

End RegExp.

(* ================================================================== *)
(** ** JSON *)
(* ================================================================== *)

Module JSON.
Import Str.
Local Open Scope N_scope.

(** Values [JSON.parse] can return.  A number is kept as the text of its
    literal (the double it denotes is a function of that text); an object
    is the list of its own properties in enumeration order. *)
Inductive json : Type :=
| JNull
| JBool (b : bool)
| JNum (lexeme : jsstring)
| JStr (s : jsstring)
| JArr (items : list json)
| JObj (props : list (jsstring * json)).

(** *** Serialisation (ECMA-262, 25.5.2) *)

Definition hex_digit (n : N) : N :=
  if (n <? 10)%N then (48 + n)%N else (87 + n)%N.

(** The six units of a [\uXXXX] escape, lower-case digits. *)
Definition UnicodeEscape (c : N) : jsstring :=
  [92; 117; hex_digit ((c / 4096) mod 16); hex_digit ((c / 256) mod 16);
   hex_digit ((c / 16) mod 16); hex_digit (c mod 16)]%N.

Definition is_leading_surrogate (c : N) : bool := between 55296 56319 c.
Definition is_trailing_surrogate (c : N) : bool := between 56320 57343 c.

(** One code unit that is not a surrogate. *)
Definition quote_unit (c : N) : jsstring :=
  if (c =? 8)%N then [92; 98]
  else if (c =? 9)%N then [92; 116]
  else if (c =? 10)%N then [92; 110]
  else if (c =? 12)%N then [92; 102]
  else if (c =? 13)%N then [92; 114]
  else if (c =? 34)%N then [92; 34]
  else if (c =? 92)%N then [92; 92]
  else if (c <? 32)%N then UnicodeEscape c
  else [c].

(** The body of [QuoteJSONString]: the string is read code point by code
    point, a surrogate pair is copied and a lone surrogate is escaped. *)
Fixpoint quote_units (s : jsstring) : jsstring :=
  match s with
  | [] => []
  | c :: t =>
      if is_leading_surrogate c then
        match t with
        | d :: t' =>
            if is_trailing_surrogate d then c :: d :: quote_units t'
            else UnicodeEscape c ++ quote_units t
        | [] => UnicodeEscape c
        end
      else if is_trailing_surrogate c then UnicodeEscape c ++ quote_units t
      else quote_unit c ++ quote_units t
  end.

Definition QuoteJSONString (s : jsstring) : jsstring :=
  34%N :: quote_units s ++ [34%N].

(** Items separated by commas. *)
Fixpoint join (items : list jsstring) : jsstring :=
  match items with
  | [] => []
  | [x] => x
  | x :: rest => x ++ 44%N :: join rest
  end.

(** One property whose value is a string: key, colon, value. *)
Definition member_text (kv : jsstring * jsstring) : jsstring :=
  QuoteJSONString (fst kv) ++ 58 :: QuoteJSONString (snd kv).

(** An object whose property values are all strings, no indentation. *)
Definition SerializeJSONObject (props : list (jsstring * jsstring)) : jsstring :=
  123 :: join (map member_text props) ++ [125].

(** An array of already serialised elements. *)
Definition SerializeJSONArray (items : list jsstring) : jsstring :=
  91%N :: join items ++ [93%N].

(** *** Parsing (the JSON grammar of ECMA-404) *)

Definition is_json_ws (c : N) : bool :=
  (c =? 32)%N || (c =? 9)%N || (c =? 10)%N || (c =? 13)%N.

Fixpoint skip_ws (s : jsstring) : jsstring :=
  match s with
  | c :: t => if is_json_ws c then skip_ws t else s
  | [] => []
  end.

Definition hex_value (c : N) : option N :=
  if between 48 57 c then Some (c - 48)%N
  else if between 97 102 c then Some (c - 87)%N
  else if between 65 70 c then Some (c - 55)%N
  else None.

Definition hex4 (a b c d : N) : option N :=
  match hex_value a, hex_value b, hex_value c, hex_value d with
  | Some x, Some y, Some z, Some w => Some (4096 * x + 256 * y + 16 * z + w)%N
  | _, _, _, _ => None
  end.

Definition unescape (e : N) : option N :=
  if (e =? 34)%N then Some 34%N
  else if (e =? 92)%N then Some 92%N
  else if (e =? 47)%N then Some 47%N
  else if (e =? 98)%N then Some 8%N
  else if (e =? 102)%N then Some 12%N
  else if (e =? 110)%N then Some 10%N
  else if (e =? 114)%N then Some 13%N
  else if (e =? 116)%N then Some 9%N
  else None.

Definition push (c : N) (r : option (jsstring * jsstring)) :
  option (jsstring * jsstring) :=
  match r with
  | Some (s, rest) => Some (c :: s, rest)
  | None => None
  end.

(** The characters of a string literal, read after the opening quote up to
    and including the closing one; returns the string and what follows. *)
Fixpoint parse_chars (s : jsstring) : option (jsstring * jsstring) :=
  match s with
  | [] => None
  | c :: t =>
      if (c =? 34)%N then Some ([], t)
      else if (c =? 92)%N then
        match t with
        | [] => None
        | e :: t' =>
            if (e =? 117)%N then
              match t' with
              | h1 :: h2 :: h3 :: h4 :: t'' =>
                  match hex4 h1 h2 h3 h4 with
                  | Some n => push n (parse_chars t'')
                  | None => None
                  end
              | _ => None
              end
            else
              match unescape e with
              | Some n => push n (parse_chars t')
              | None => None
              end
        end
      else if (c <? 32)%N then None
      else push c (parse_chars t)
  end.

Fixpoint take_digits (s : jsstring) : jsstring * jsstring :=
  match s with
  | c :: t =>
      if is_digit c then let (ds, rest) := take_digits t in (c :: ds, rest)
      else ([], s)
  | [] => ([], [])
  end.

(** [digits+] *)
Definition digits1 (s : jsstring) : option (jsstring * jsstring) :=
  match take_digits s with
  | ([], _) => None
  | (ds, rest) => Some (ds, rest)
  end.

(** A number literal: an optional minus sign, an integer part without
    leading zero, an optional fraction and an optional exponent. *)
Definition parse_number (s : jsstring) : option (jsstring * jsstring) :=
  let (sign, s1) :=
    match s with
    | c :: t => if (c =? 45)%N then ([c], t) else ([], s)
    | [] => ([], s)
    end in
  match s1 with
  | [] => None
  | c :: t =>
      let int_part :=
        if (c =? 48)%N then Some ([c], t)
        else if between 49 57 c then
          let (ds, rest) := take_digits t in Some (c :: ds, rest)
        else None in
      match int_part with
      | None => None
      | Some (i, s2) =>
          let frac_part :=
            match s2 with
            | d :: t2 =>
                if (d =? 46)%N then
                  match digits1 t2 with
                  | Some (ds, rest) => Some (d :: ds, rest)
                  | None => None
                  end
                else Some ([], s2)
            | [] => Some ([], s2)
            end in
          match frac_part with
          | None => None
          | Some (f, s3) =>
              let exp_part :=
                match s3 with
                | e :: t3 =>
                    if (e =? 101)%N || (e =? 69)%N then
                      let (sg, t4) :=
                        match t3 with
                        | g :: t4 =>
                            if (g =? 43)%N || (g =? 45)%N then ([g], t4)
                            else ([], t3)
                        | [] => ([], t3)
                        end in
                      match digits1 t4 with
                      | Some (ds, rest) => Some (e :: sg ++ ds, rest)
                      | None => None
                      end
                    else Some ([], s3)
                | [] => Some ([], s3)
                end in
              match exp_part with
              | None => None
              | Some (x, s4) => Some (sign ++ i ++ f ++ x, s4)
              end
          end
      end
  end.

(** [s] begins with [word]: what follows it. *)
Fixpoint after_prefix (word s : jsstring) : option jsstring :=
  match word, s with
  | [], _ => Some s
  | w :: word', c :: t => if (w =? c)%N then after_prefix word' t else None
  | _ :: _, [] => None
  end.

(** *** Building the object a JSON text denotes *)

(** A property key that is an array index: a canonical decimal numeral
    below 2^32 - 1. *)
Definition array_index (k : jsstring) : option N :=
  match k with
  | [] => None
  | c :: t =>
      if (c =? 48)%N then match t with [] => Some 0%N | _ => None end
      else if between 49 57 c && forallb is_digit t then
        let n := fold_left (fun a d => (10 * a + (d - 48))%N) k 0%N in
        if (n <? 4294967295)%N then Some n else None
      else None
  end.

Fixpoint has_key (k : jsstring) (props : list (jsstring * json)) : bool :=
  match props with
  | [] => false
  | (k', _) :: rest => eqb k k' || has_key k rest
  end.

Fixpoint replace_value (k : jsstring) (v : json) (props : list (jsstring * json)) :
  list (jsstring * json) :=
  match props with
  | [] => []
  | (k', v') :: rest =>
      if eqb k k' then (k', v) :: rest else (k', v') :: replace_value k v rest
  end.

(** Index keys enumerate first, in ascending order. *)
Fixpoint insert_index (n : N) (k : jsstring) (v : json)
  (props : list (jsstring * json)) : list (jsstring * json) :=
  match props with
  | [] => [(k, v)]
  | (k', v') :: rest =>
      match array_index k' with
      | Some m =>
          if (m <? n)%N then (k', v') :: insert_index n k v rest
          else (k, v) :: props
      | None => (k, v) :: props
      end
  end.

(** [CreateDataProperty]: a repeated key overwrites the value in place; a
    new key goes after the others, index keys before the rest. *)
Definition define_property (props : list (jsstring * json)) (kv : jsstring * json) :
  list (jsstring * json) :=
  let (k, v) := kv in
  if has_key k props then replace_value k v props
  else match array_index k with
       | Some n => insert_index n k v props
       | None => props ++ [(k, v)]
       end.

Definition make_object (members : list (jsstring * json)) : json :=
  JObj (fold_left define_property members []).

(** *** The recursive-descent parser; [fuel] bounds the recursion. *)

Fixpoint parse_value (fuel : nat) (s : jsstring) : option (json * jsstring) :=
  match fuel with
  | O => None
  | S fuel' =>
      match skip_ws s with
      | [] => None
      | c :: t =>
          if (c =? 34)%N then
            match parse_chars t with
            | Some (str, rest) => Some (JStr str, rest)
            | None => None
            end
          else if (c =? 91)%N then
            match skip_ws t with
            | d :: t' =>
                if (d =? 93)%N then Some (JArr [], t')
                else match parse_elements fuel' t with
                     | Some (vs, rest) => Some (JArr vs, rest)
                     | None => None
                     end
            | [] => None
            end
          else if (c =? 123)%N then
            match skip_ws t with
            | d :: t' =>
                if (d =? 125)%N then Some (JObj [], t')
                else match parse_members fuel' t with
                     | Some (ms, rest) => Some (make_object ms, rest)
                     | None => None
                     end
            | [] => None
            end
          else if (c =? 116)%N then
            match after_prefix (js "true") (c :: t) with
            | Some rest => Some (JBool true, rest)
            | None => None
            end
          else if (c =? 102)%N then
            match after_prefix (js "false") (c :: t) with
            | Some rest => Some (JBool false, rest)
            | None => None
            end
          else if (c =? 110)%N then
            match after_prefix (js "null") (c :: t) with
            | Some rest => Some (JNull, rest)
            | None => None
            end
          else
            match parse_number (c :: t) with
            | Some (lexeme, rest) => Some (JNum lexeme, rest)
            | None => None
            end
      end
  end

with parse_elements (fuel : nat) (s : jsstring) : option (list json * jsstring) :=
  match fuel with
  | O => None
  | S fuel' =>
      match parse_value fuel' s with
      | None => None
      | Some (v, rest) =>
          match skip_ws rest with
          | d :: rest' =>
              if (d =? 44)%N then
                match parse_elements fuel' rest' with
                | Some (vs, rest'') => Some (v :: vs, rest'')
                | None => None
                end
              else if (d =? 93)%N then Some ([v], rest')
              else None
          | [] => None
          end
      end
  end

with parse_members (fuel : nat) (s : jsstring) :
  option (list (jsstring * json) * jsstring) :=
  match fuel with
  | O => None
  | S fuel' =>
      match skip_ws s with
      | q :: t =>
          if (q =? 34)%N then
            match parse_chars t with
            | None => None
            | Some (key, rest) =>
                match skip_ws rest with
                | colon :: rest1 =>
                    if (colon =? 58)%N then
                      match parse_value fuel' rest1 with
                      | None => None
                      | Some (v, rest2) =>
                          match skip_ws rest2 with
                          | d :: rest3 =>
                              if (d =? 44)%N then
                                match parse_members fuel' rest3 with
                                | Some (ms, rest4) => Some ((key, v) :: ms, rest4)
                                | None => None
                                end
                              else if (d =? 125)%N then Some ([(key, v)], rest3)
                              else None
                          | [] => None
                          end
                      end
                    else None
                | [] => None
                end
            end
          else None
      | [] => None
      end
  end.

(** [JSON.parse]: one value, surrounded by optional white space; [None]
    stands for the [SyntaxError] it throws. *)
Definition parse (text : jsstring) : option json :=
  match parse_value (S (List.length text)) text with
  | Some (v, rest) =>
      match skip_ws rest with
      | [] => Some v
      | _ :: _ => None
      end
  | None => None
  end.

(** Fuel [f] is no limit for [parser]: a result it reaches with [f] is
    reached with any fuel not below the number of units consumed. *)
Definition within {A : Type} (parser : nat -> jsstring -> option (A * jsstring))
  (f : nat) : Prop :=
  forall s v r,
    parser f s = Some (v, r) ->
    (List.length r < List.length s)%nat
    /\ forall f', (List.length s - List.length r <= f')%nat ->
                  parser f' s = Some (v, r).

End JSON.

(* ================================================================== *)
(** ** The component *)
(* ================================================================== *)

Module App.
Import Str RegExp JSON.
Local Open Scope N_scope.

(** [interface UserData] *)
Module User.
Record UserData : Type := {
  id : jsstring;
  fullName : jsstring;
  email : jsstring;
  phone : jsstring;
  dateOfBirth : jsstring;
  registeredAt : jsstring
}.
End User.
Definition UserData : Type := User.UserData.

(** [keyof FormData] *)
Inductive FieldName : Type :=
| fullName | email | password | confirmPassword | phone | dateOfBirth.

(** An object with one slot per form field: [FormData] holds strings,
    [FormErrors] optional messages, [touched] flags. *)
Record Fields (A : Type) : Type := {
  at_fullName : A;
  at_email : A;
  at_password : A;
  at_confirmPassword : A;
  at_phone : A;
  at_dateOfBirth : A
}.

Definition FormData := Fields jsstring.
Definition FormErrors := Fields (option jsstring).
Definition Touched := Fields bool.

(** [o[name]] *)
Definition get {A} (o : Fields A) (name : FieldName) : A :=
  match name with
  | fullName => at_fullName o
  | email => at_email o
  | password => at_password o
  | confirmPassword => at_confirmPassword o
  | phone => at_phone o
  | dateOfBirth => at_dateOfBirth o
  end.

(** [{ ...o, [name]: a }] *)
Definition set {A} (o : Fields A) (name : FieldName) (a : A) : Fields A :=
  match name with
  | fullName =>
      {| at_fullName := a; at_email := at_email o; at_password := at_password o;
         at_confirmPassword := at_confirmPassword o; at_phone := at_phone o;
         at_dateOfBirth := at_dateOfBirth o |}
  | email =>
      {| at_fullName := at_fullName o; at_email := a; at_password := at_password o;
         at_confirmPassword := at_confirmPassword o; at_phone := at_phone o;
         at_dateOfBirth := at_dateOfBirth o |}
  | password =>
      {| at_fullName := at_fullName o; at_email := at_email o; at_password := a;
         at_confirmPassword := at_confirmPassword o; at_phone := at_phone o;
         at_dateOfBirth := at_dateOfBirth o |}
  | confirmPassword =>
      {| at_fullName := at_fullName o; at_email := at_email o;
         at_password := at_password o; at_confirmPassword := a;
         at_phone := at_phone o; at_dateOfBirth := at_dateOfBirth o |}
  | phone =>
      {| at_fullName := at_fullName o; at_email := at_email o;
         at_password := at_password o;
         at_confirmPassword := at_confirmPassword o; at_phone := a;
         at_dateOfBirth := at_dateOfBirth o |}
  | dateOfBirth =>
      {| at_fullName := at_fullName o; at_email := at_email o;
         at_password := at_password o;
         at_confirmPassword := at_confirmPassword o; at_phone := at_phone o;
         at_dateOfBirth := a |}
  end.

Definition every {A} (a : A) : Fields A :=
  {| at_fullName := a; at_email := a; at_password := a;
     at_confirmPassword := a; at_phone := a; at_dateOfBirth := a |}.

(** [Object.keys(formData)], in the order the properties were created. *)
Definition keys : list FieldName :=
  [fullName; email; password; confirmPassword; phone; dateOfBirth].

(** *** Numbers and the clock *)

(** The numbers the date check computes with: an integer year or NaN. *)
Inductive number : Type := NaN | Num (z : Z).

Definition minus (a b : number) : number :=
  match a, b with
  | Num x, Num y => Num (x - y)
  | _, _ => NaN
  end.

(** [a < b]; false when either side is NaN. *)
Definition lt (a b : number) : bool :=
  match a, b with
  | Num x, Num y => (x <? y)%Z
  | _, _ => false
  end.

Definition gt (a b : number) : bool := lt b a.

(** What the handlers read from [Date]: the parser behind
    [new Date(value)] followed by [getFullYear] (NaN for an invalid date),
    the current year, [Date.now()] and [new Date().toISOString()]. *)
Record Host : Type := {
  getFullYear_of : jsstring -> number;
  getFullYear_today : Z;
  Date_now : Z;
  toISOString_now : jsstring
}.

(** *** The patterns of [validateField] *)

(** [/^[a-zA-Z\s]+$/] *)
Definition name_pattern : regex :=
  Some1 (Class (fun c => is_letter c || is_space c)).

(** [[^\s@]] *)
Definition not_space_at (c : N) : bool := negb (is_space c || (c =? 64)).

(** [/^[^\s@]+@[^\s@]+\.[^\s@]+$/] *)
Definition email_pattern : regex :=
  Seq (Some1 (Class not_space_at))
    (Seq (Lit 64)
       (Seq (Some1 (Class not_space_at))
          (Seq (Lit 46) (Some1 (Class not_space_at))))).

(** [[@$!%*?&]] *)
Definition is_special (c : N) : bool :=
  (c =? 64) || (c =? 36) || (c =? 33) || (c =? 37) || (c =? 42)
  || (c =? 63) || (c =? 38).

(** The body [.*[...]] of the four password lookaheads. *)
Definition somewhere (p : N -> bool) : regex := Seq (Many Dot) (Class p).

(** [[\d\s-()]]: next to the class escape the hyphen is a literal. *)
Definition phone_unit (c : N) : bool :=
  is_digit c || is_space c || (c =? 45) || (c =? 40) || (c =? 41).

(** [/^\+?[\d\s-()]+$/] *)
Definition phone_pattern : regex :=
  Seq (Opt (Lit 43)) (Some1 (Class phone_unit)).

(** [value.replace(/\D/g, '')] *)
Definition digits_only (value : jsstring) : jsstring := filter is_digit value.

(** *** validateField *)

(** [formData] is the form state the closure captured; only the
    [confirmPassword] case reads it. *)
Definition validateField (host : Host) (formData : FormData)
  (name : FieldName) (value : jsstring) : option jsstring :=
  match name with
  | fullName =>
      if falsy (trim value) then Some (js "Full name is required")
      else if (List.length (trim value) <? 2)%nat
      then Some (js "Name must be at least 2 characters")
      else if negb (test_whole name_pattern value)
      then Some (js "Name can only contain letters")
      else None
  | email =>
      if falsy (trim value) then Some (js "Email is required")
      else if negb (test_whole email_pattern value)
      then Some (js "Invalid email format")
      else None
  | password =>
      if falsy value then Some (js "Password is required")
      else if (List.length value <? 8)%nat
      then Some (js "Password must be at least 8 characters")
      else if negb (test_lookahead (somewhere is_lower) value)
      then Some (js "Password must contain a lowercase letter")
      else if negb (test_lookahead (somewhere is_upper) value)
      then Some (js "Password must contain an uppercase letter")
      else if negb (test_lookahead (somewhere is_digit) value)
      then Some (js "Password must contain a number")
      else if negb (test_lookahead (somewhere is_special) value)
      then Some (js "Password must contain a special character")
      else None
  | confirmPassword =>
      if falsy value then Some (js "Please confirm your password")
      else if negb (eqb value (get formData password))
      then Some (js "Passwords do not match")
      else None
  | phone =>
      if falsy (trim value) then Some (js "Phone number is required")
      else if negb (test_whole phone_pattern value)
      then Some (js "Invalid phone number format")
      else if (List.length (digits_only value) <? 10)%nat
      then Some (js "Phone number must be at least 10 digits")
      else None
  | dateOfBirth =>
      if falsy value then Some (js "Date of birth is required")
      else
        let dob := getFullYear_of host value in
        let today := Num (getFullYear_today host) in
        let age := minus today dob in
        if lt age (Num 13) then Some (js "You must be at least 13 years old")
        else if gt age (Num 120) then Some (js "Please enter a valid date")
        else None
  end.

(** [if (error)]: a message is truthy unless it is the empty string. *)
Definition truthy (error : option jsstring) : bool :=
  match error with
  | Some m => negb (falsy m)
  | None => false
  end.

(** *** State *)

(** The component state the handlers touch and the [registeredUsers] item
    of [localStorage] ([None]: no such item). *)
Record AppState : Type := {
  users : list UserData;
  showSuccess : bool;
  formData : FormData;
  errors : FormErrors;
  touched : Touched;
  registeredUsers : option jsstring
}.

(** [JSON.stringify] of one record: its six properties in creation order. *)
Definition stringify_user (u : UserData) : jsstring :=
  SerializeJSONObject
    [(js "id", User.id u); (js "fullName", User.fullName u);
     (js "email", User.email u); (js "phone", User.phone u);
     (js "dateOfBirth", User.dateOfBirth u);
     (js "registeredAt", User.registeredAt u)].

(** [JSON.stringify(updatedUsers)] *)
Definition stringify_users (l : list UserData) : jsstring :=
  SerializeJSONArray (map stringify_user l).

(** A record, and a list of records, as JavaScript values. *)
Definition user_value (u : UserData) : json :=
  JObj
    [(js "id", JStr (User.id u)); (js "fullName", JStr (User.fullName u));
     (js "email", JStr (User.email u)); (js "phone", JStr (User.phone u));
     (js "dateOfBirth", JStr (User.dateOfBirth u));
     (js "registeredAt", JStr (User.registeredAt u))].

Definition users_value (l : list UserData) : json := JArr (map user_value l).

(** *** The start-up effect *)

Inductive exn : Type := SyntaxError.

Inductive outcome (A : Type) : Type :=
| Returns (a : A)
| Throws (e : exn).
Arguments Returns {A} a.
Arguments Throws {A} e.

(** The [useEffect] that runs once after mounting: the value the [users]
    state holds afterwards (it starts as the empty array), or the
    exception that leaves the effect. *)
Definition loadUsers (item : option jsstring) : outcome json :=
  match item with
  | None => Returns (JArr [])
  | Some storedUsers =>
      if falsy storedUsers then Returns (JArr [])
      else match parse storedUsers with
           | Some v => Returns v
           | None => Throws SyntaxError
           end
  end.

(** *** Handlers *)

Definition handleChange (host : Host) (name : FieldName) (value : jsstring)
  (s : AppState) : AppState :=
  {| users := users s;
     showSuccess := showSuccess s;
     formData := set (formData s) name value;
     errors :=
       if get (touched s) name
       then set (errors s) name (validateField host (formData s) name value)
       else errors s;
     touched := touched s;
     registeredUsers := registeredUsers s |}.

Definition handleBlur (host : Host) (name : FieldName) (value : jsstring)
  (s : AppState) : AppState :=
  {| users := users s;
     showSuccess := showSuccess s;
     formData := formData s;
     errors := set (errors s) name (validateField host (formData s) name value);
     touched := set (touched s) name true;
     registeredUsers := registeredUsers s |}.

(** One round of the [forEach] in [handleSubmit]. *)
Definition check_key (host : Host) (formData : FormData)
  (acc : FormErrors * bool) (key : FieldName) : FormErrors * bool :=
  let error := validateField host formData key (get formData key) in
  if truthy error then (set (fst acc) key error, true) else acc.

(** [newErrors] and [hasErrors] after the loop over the keys. *)
Definition check_all (host : Host) (formData : FormData) : FormErrors * bool :=
  fold_left (check_key host formData) keys (every None, false).

Definition newUser (host : Host) (formData : FormData) : UserData :=
  {| User.id := toString (Date_now host);
     User.fullName := get formData fullName;
     User.email := get formData email;
     User.phone := get formData phone;
     User.dateOfBirth := get formData dateOfBirth;
     User.registeredAt := toISOString_now host |}.

Definition handleSubmit (host : Host) (s : AppState) : AppState :=
  let (newErrors, hasErrors) := check_all host (formData s) in
  if hasErrors then
    {| users := users s;
       showSuccess := showSuccess s;
       formData := formData s;
       errors := newErrors;
       touched := every true;
       registeredUsers := registeredUsers s |}
  else
    let updatedUsers := users s ++ [newUser host (formData s)] in
    {| users := updatedUsers;
       showSuccess := true;
       formData := every [];
       errors := every None;
       touched := every false;
       registeredUsers := Some (stringify_users updatedUsers) |}.

Definition handleDeleteUser (id : jsstring) (s : AppState) : AppState :=
  let updatedUsers := filter (fun user => negb (eqb (User.id user) id)) (users s) in
  {| users := updatedUsers;
     showSuccess := showSuccess s;
     formData := formData s;
     errors := errors s;
     touched := touched s;
     registeredUsers := Some (stringify_users updatedUsers) |}.

(** *** A host for the examples *)

(** A [Date] that accepts exactly the date-only form [YYYY-MM-DD] and
    reads it in UTC. *)
Definition year_of_date_only (value : jsstring) : number :=
  match value with
  | [y1; y2; y3; y4; h1; m1; m2; h2; d1; d2] =>
      if forallb is_digit [y1; y2; y3; y4; m1; m2; d1; d2]
         && (h1 =? 45) && (h2 =? 45)
      then Num (Z.of_N (1000 * (y1 - 48) + 100 * (y2 - 48) + 10 * (y3 - 48) + (y4 - 48)))
      else NaN
  | _ => NaN
  end.

Definition exampleHost : Host :=
  {| getFullYear_of := year_of_date_only;
     getFullYear_today := 2025;
     Date_now := 1762108000000;
     toISOString_now := js "2025-11-02T18:26:40.000Z" |}.

Definition exampleForm : FormData :=
  {| at_fullName := js "Jo"; at_email := js "a@b.com";
     at_password := js "Abcdef1!"; at_confirmPassword := js "Abcdef1!";
     at_phone := js "1234567890"; at_dateOfBirth := js "2000-01-01" |}.

(** The state right after mounting, before the start-up effect. *)
Definition initialState (item : option jsstring) : AppState :=
  {| users := []; showSuccess := false; formData := every [];
     errors := every None; touched := every false;
     registeredUsers := item |}.

(** The list [l] on screen and in the store, [fd] typed into the form. *)
Definition formState (l : list UserData) (fd : FormData) : AppState :=
  {| users := l; showSuccess := false; formData := fd;
     errors := every None; touched := every false;
     registeredUsers := Some (stringify_users l) |}.

(** The same form with a password that has no upper-case letter. *)
Definition weakPasswordForm : FormData :=
  set (set exampleForm password (js "abcdefgh")) confirmPassword (js "abcdefgh").

(** The same form with another password. *)
Definition otherPasswordForm : FormData :=
  set (set exampleForm password (js "Zyxwvu9?")) confirmPassword (js "Zyxwvu9?").

(** The same form, the name typed with a space on either side. *)
Definition paddedForm : FormData := set exampleForm fullName (js " Jo ").

Definition exampleUser : UserData :=
  {| User.id := js "1762000000000"; User.fullName := js "Ann Lee";
     User.email := js "ann@lee.org"; User.phone := js "+1 (555) 010-0199";
     User.dateOfBirth := js "1990-05-17";
     User.registeredAt := js "2025-11-01T12:26:40.000Z" |}.

End App.

(* ================================================================== *)
(** ** The page: what is displayed and what can happen *)
(* ================================================================== *)

Module Page.
Import Str JSON App.

(** The test [errors.x && touched.x] that guards the message under each
    input (and its red border). *)
Definition errorShown (s : AppState) (name : FieldName) : bool :=
  truthy (get (errors s) name) && get (touched s) name.

(** The first message of each case of [validateField]. *)
Definition requiredMessage (name : FieldName) : jsstring :=
  match name with
  | fullName => js "Full name is required"
  | email => js "Email is required"
  | password => js "Password is required"
  | confirmPassword => js "Please confirm your password"
  | phone => js "Phone number is required"
  | dateOfBirth => js "Date of birth is required"
  end.

(** The callbacks the markup binds: [onChange] and [onBlur] of the six
    inputs, [onSubmit] of the form, [onClick] of a delete button. *)
Inductive event : Type :=
| Change (name : FieldName) (value : jsstring)
| Blur (name : FieldName) (value : jsstring)
| Submit
| Delete (id : jsstring).

Definition handle (host : Host) (e : event) (s : AppState) : AppState :=
  match e with
  | Change name value => handleChange host name value s
  | Blur name value => handleBlur host name value s
  | Submit => handleSubmit host s
  | Delete id => handleDeleteUser id s
  end.

(** A record whose name, e-mail address and phone number pass
    [validateField]; these three checks read neither the clock nor the
    rest of the form. *)
Definition wellFormed (u : UserData) : Prop :=
  forall (host : Host) (formData : FormData),
    validateField host formData fullName (User.fullName u) = None
    /\ validateField host formData email (User.email u) = None
    /\ validateField host formData phone (User.phone u) = None.

(** Typing a whole form: one change per input. *)
Definition fillForm (clock : FieldName -> Host) (fd : FormData) :
  list (Host * event) :=
  map (fun name => (clock name, Change name (get fd name))) keys.

(** A session: events in order, each with the clock it ran under. *)
Fixpoint run (evs : list (Host * event)) (s : AppState) : AppState :=
  match evs with
  | [] => s
  | (host, e) :: rest => run rest (handle host e s)
  end.

End Page.

Unset Implicit Arguments.
Import Str RegExp JSON App Page.

(* ================================================================== *)
(** ** Facts about strings *)
(* ================================================================== *)

Section StrFacts.

Lemma eqb_eq (a b : jsstring) : eqb a b = true <-> a = b.
Proof.
  unfold eqb. destruct (list_eq_dec N.eq_dec a b); split; congruence.
Qed.

Lemma falsy_nil (s : jsstring) : falsy s = true <-> s = [].
Proof. destruct s; simpl; split; congruence. Qed.

Lemma falsy_false (s : jsstring) : falsy s = false <-> s <> [].
Proof. destruct s; simpl; split; congruence. Qed.

Lemma trimStart_all_space (s : jsstring) :
  trimStart s = [] <-> forallb is_space s = true.
Proof.
  induction s as [|c t IH]; simpl.
  - tauto.
  - destruct (is_space c); simpl; [exact IH | split; discriminate].
Qed.

Lemma trimStart_head (s : jsstring) (c : N) (t : jsstring) :
  trimStart s = c :: t -> is_space c = false.
Proof.
  induction s as [|d u IH]; simpl.
  - discriminate.
  - destruct (is_space d) eqn:Ed; [exact IH|].
    intros E. inversion E; subst. exact Ed.
Qed.

Lemma trim_nil_iff (s : jsstring) : trim s = [] <-> forallb is_space s = true.
Proof.
  unfold trim, trimEnd. rewrite <- trimStart_all_space. split.
  - intros H. destruct (trimStart s) as [|c t] eqn:E; [reflexivity|].
    exfalso. apply trimStart_head in E.
    apply (f_equal (@rev N)) in H. rewrite rev_involutive in H.
    apply trimStart_all_space in H. rewrite forallb_forall in H.
    rewrite (H c) in E; [discriminate|].
    apply -> in_rev. left. reflexivity.
  - intros ->. reflexivity.
Qed.

End StrFacts.

(* ================================================================== *)
(** ** Facts about the matcher *)
(* ================================================================== *)

Section RegExpFacts.

Lemma nullable_Lang (r : regex) : nullable r = true <-> Lang r [].
Proof.
  split.
  - induction r; simpl; intros H; try discriminate; auto with regexp.
    + apply andb_true_iff in H as [H1 H2].
      change (@nil N) with (@nil N ++ []). auto with regexp.
    + apply orb_true_iff in H as [H|H]; auto with regexp.
  - intros H. remember (@nil N) as s eqn:Es.
    induction H; simpl; try discriminate; try reflexivity.
    + apply app_eq_nil in Es as [-> ->].
      rewrite IHLang1, IHLang2; reflexivity.
    + rewrite IHLang; auto.
    + rewrite IHLang; auto with bool.
Qed.

Lemma Lang_deriv (c : N) (r : regex) (s : jsstring) :
  Lang (deriv c r) s -> Lang r (c :: s).
Proof.
  revert s. induction r; simpl; intros s H.
  - inversion H.
  - inversion H.
  - destruct (p c) eqn:E; inversion H; subst. constructor. exact E.
  - destruct (nullable r1) eqn:E.
    + inversion H as [| |? ? ? ? H1 H2| ? ? ? H1 | ? ? ? H1 | |]; subst.
      * inversion H1; subst.
        change (c :: s1 ++ s2) with ((c :: s1) ++ s2). auto with regexp.
      * change (c :: s) with ([] ++ c :: s). constructor; auto.
        apply nullable_Lang. exact E.
    + inversion H; subst.
      change (c :: s1 ++ s2) with ((c :: s1) ++ s2). auto with regexp.
  - inversion H; subst; auto with regexp.
  - inversion H; subst.
    change (c :: s1 ++ s2) with ((c :: s1) ++ s2). auto with regexp.
Qed.

Lemma deriv_Lang (c : N) (r : regex) (s : jsstring) :
  Lang r (c :: s) -> Lang (deriv c r) s.
Proof.
  intros H. remember (c :: s) as w eqn:E. revert s E.
  induction H; intros s0 E; simpl.
  - discriminate.
  - inversion E; subst. rewrite H. constructor.
  - destruct s1 as [|d s1']; simpl in E.
    + subst s2. apply nullable_Lang in H. rewrite H.
      apply L_OrR. apply IHLang2. reflexivity.
    + inversion E; subst.
      destruct (nullable r1); [apply L_OrL|]; constructor; auto.
  - apply L_OrL. auto.
  - apply L_OrR. auto.
  - discriminate.
  - destruct s1 as [|d s1']; simpl in E.
    + subst s2. apply (IHLang2 s0). reflexivity.
    + inversion E; subst. constructor; auto.
Qed.

(** The anchored test decides membership in the language. *)
Lemma test_whole_Lang (r : regex) (s : jsstring) :
  test_whole r s = true <-> Lang r s.
Proof.
  revert r. induction s as [|c t IH]; intros r; simpl.
  - apply nullable_Lang.
  - rewrite IH. split; [apply Lang_deriv | apply deriv_Lang].
Qed.

Lemma matches_at_start_Lang (r : regex) (s : jsstring) :
  matches_at_start r s = true <-> exists p q, s = p ++ q /\ Lang r p.
Proof.
  revert r. induction s as [|c t IH]; intros r; simpl.
  - rewrite orb_false_r, nullable_Lang. split.
    + intros H. exists [], []. auto.
    + intros (p & q & E & H). symmetry in E.
      apply app_eq_nil in E as [-> _]. exact H.
  - rewrite orb_true_iff, IH, nullable_Lang. split.
    + intros [H | (p & q & E & H)].
      * exists [], (c :: t). auto.
      * exists (c :: p), q. subst t. split; [reflexivity|].
        apply Lang_deriv. exact H.
    + intros (p & q & E & H). destruct p as [|d p'].
      * left. exact H.
      * right. inversion E; subst. exists p', q. split; [reflexivity|].
        apply deriv_Lang. exact H.
Qed.

(** The lookahead test holds where a factor of the string is in the
    language. *)
Lemma test_lookahead_Lang (r : regex) (s : jsstring) :
  test_lookahead r s = true <->
  exists a p q, s = a ++ p ++ q /\ Lang r p.
Proof.
  induction s as [|c t IH]; cbn [test_lookahead].
  - rewrite orb_false_r, matches_at_start_Lang. split.
    + intros (p & q & E & H). exists [], p, q. auto.
    + intros (a & p & q & E & H). destruct a; [|discriminate].
      exists p, q. auto.
  - rewrite orb_true_iff, IH, matches_at_start_Lang. split.
    + intros [(p & q & E & H) | (a & p & q & E & H)].
      * exists [], p, q. auto.
      * exists (c :: a), p, q. subst t. auto.
    + intros (a & p & q & E & H). destruct a as [|d a'].
      * left. exists p, q. auto.
      * right. inversion E; subst. exists a', p, q. auto.
Qed.

Lemma Lang_Class_inv (p : N -> bool) (s : jsstring) :
  Lang (Class p) s -> exists c, s = [c] /\ p c = true.
Proof. intros H. inversion H; subst. eauto. Qed.

Lemma Lang_Seq_inv (r1 r2 : regex) (s : jsstring) :
  Lang (Seq r1 r2) s ->
  exists s1 s2, s = s1 ++ s2 /\ Lang r1 s1 /\ Lang r2 s2.
Proof. intros H. inversion H; subst. eauto. Qed.

Lemma Lang_Many_Class (p : N -> bool) (s : jsstring) :
  Lang (Many (Class p)) s <-> forallb p s = true.
Proof.
  split.
  - intros H. remember (Many (Class p)) as r eqn:E. revert E.
    induction H; intros E; try discriminate; [reflexivity|].
    inversion E; subst.
    apply Lang_Class_inv in H as (c & -> & Hc). simpl.
    rewrite Hc. apply IHLang2. reflexivity.
  - induction s as [|c t IH]; simpl; intros H.
    + constructor.
    + apply andb_true_iff in H as [Hc Ht].
      change (c :: t) with ([c] ++ t). auto with regexp.
Qed.

(** [/^[...]+$/]: a non-empty string of units of the class. *)
Lemma test_whole_Some1_Class (p : N -> bool) (s : jsstring) :
  test_whole (Some1 (Class p)) s = true <-> s <> [] /\ forallb p s = true.
Proof.
  rewrite test_whole_Lang. unfold Some1. split.
  - intros H. apply Lang_Seq_inv in H as (s1 & s2 & -> & H1 & H2).
    apply Lang_Class_inv in H1 as (c & -> & Hc).
    apply Lang_Many_Class in H2. simpl. rewrite Hc.
    split; [discriminate|exact H2].
  - intros [Hn H]. destruct s as [|c t]; [congruence|]. simpl in H.
    apply andb_true_iff in H as [Hc Ht].
    change (c :: t) with ([c] ++ t). constructor.
    + constructor. exact Hc.
    + apply Lang_Many_Class. exact Ht.
Qed.

(** [/(?=.*[...])/]: some unit of the string is in the class. *)
Lemma test_lookahead_somewhere (p : N -> bool) (s : jsstring) :
  test_lookahead (somewhere p) s = existsb p s.
Proof.
  apply eq_true_iff_eq. rewrite test_lookahead_Lang, existsb_exists. split.
  - intros (a & w & q & E & H). unfold somewhere in H.
    apply Lang_Seq_inv in H as (s1 & s2 & -> & _ & H2).
    apply Lang_Class_inv in H2 as (c & -> & Hc).
    exists c. split; [|assumption]. subst s.
    apply in_or_app. right. apply in_or_app. left.
    apply in_or_app. right. left. reflexivity.
  - intros (c & Hin & Hc). apply in_split in Hin as (a & q & ->).
    exists a, [c], q. split; [reflexivity|].
    change [c] with ([] ++ [c]). unfold somewhere. auto with regexp.
Qed.

End RegExpFacts.

(* ================================================================== *)
(** ** The field validator *)
(* ================================================================== *)

Section Validator.

Variable host : Host.
Variable formData : FormData.

Lemma forallb_false_exists (p : N -> bool) (s : jsstring) :
  forallb p s = false -> exists c, In c s /\ p c = false.
Proof.
  induction s as [|c t IH]; simpl; [discriminate|].
  destruct (p c) eqn:E; simpl.
  - intros H. destruct (IH H) as (d & Hd & Hp). eauto.
  - intros _. eauto.
Qed.

Lemma trim_not_nil (v : jsstring) : trim v <> [] -> v <> [].
Proof. intros H ->. apply H. reflexivity. Qed.

(** C4.  A password is accepted exactly when it has at least eight code
    units and contains a lower-case letter, an upper-case letter, a digit
    and one of the characters [@$!%*?&]. *)
Theorem C4_password_valid_iff (v : jsstring) :
  validateField host formData password v = None <->
  (8 <= List.length v)%nat
  /\ (exists c, In c v /\ is_lower c = true)
  /\ (exists c, In c v /\ is_upper c = true)
  /\ (exists c, In c v /\ is_digit c = true)
  /\ (exists c, In c v /\ is_special c = true).
Proof.
  unfold validateField.
  rewrite !test_lookahead_somewhere, <- !existsb_exists.
  destruct (falsy v) eqn:F.
  - apply falsy_nil in F. subst v. simpl. split; [discriminate | lia].
  - destruct (Nat.ltb_spec (List.length v) 8) as [L|L].
    + split; [discriminate | lia].
    + destruct (existsb is_lower v), (existsb is_upper v),
        (existsb is_digit v), (existsb is_special v); simpl;
        split; intros H; try discriminate; try tauto;
        decompose [and] H; discriminate.
Qed.

(** C5.  A full name is rejected exactly when it is empty after trimming,
    or shorter than two code units after trimming, or contains a unit that
    is neither an ASCII letter nor white space. *)
Theorem C5_fullName_invalid_iff (v : jsstring) :
  validateField host formData fullName v <> None <->
  trim v = []
  \/ (List.length (trim v) < 2)%nat
  \/ (exists c, In c v /\ is_letter c = false /\ is_space c = false).
Proof.
  unfold validateField.
  destruct (falsy (trim v)) eqn:F.
  - apply falsy_nil in F. split; [tauto | discriminate].
  - apply falsy_false in F.
    destruct (Nat.ltb_spec (List.length (trim v)) 2) as [L|L].
    + split; [tauto | discriminate].
    + destruct (test_whole name_pattern v) eqn:T; simpl.
      * apply test_whole_Some1_Class in T as [_ T].
        rewrite forallb_forall in T.
        split; [intros H; exfalso; apply H; reflexivity|].
        intros [H | [H | (c & Hin & Hl & Hs)]]; [congruence | lia |].
        apply T in Hin. rewrite Hl, Hs in Hin. discriminate.
      * split; [|discriminate]. intros _. right. right.
        destruct (forallb (fun c => is_letter c || is_space c) v) eqn:A.
        -- assert (test_whole name_pattern v = true) as T'.
           { apply test_whole_Some1_Class. split; [|exact A].
             apply trim_not_nil. exact F. }
           congruence.
        -- apply forallb_false_exists in A as (c & Hin & Hc).
           apply orb_false_iff in Hc as [Hl Hs]. eauto.
Qed.

(** C6.  The confirmation is accepted exactly when it is non-empty and
    equal to the password held in the form state. *)
Theorem C6_confirmPassword_valid_iff (v : jsstring) :
  validateField host formData confirmPassword v = None <->
  v <> [] /\ v = get formData password.
Proof.
  unfold validateField.
  destruct (falsy v) eqn:F.
  - apply falsy_nil in F. split; [discriminate | tauto].
  - apply falsy_false in F.
    destruct (eqb v (get formData password)) eqn:E; simpl.
    + apply eqb_eq in E. tauto.
    + split; [discriminate|]. intros [_ H].
      apply eqb_eq in H. change (eqb v (get formData password) = true) in H.
      congruence.
Qed.

(** C2 (as the code has it).  For a non-empty value the date check only
    compares the age with the two bounds: a value that [Date] cannot read
    gives a NaN age, both comparisons are false and the value is accepted;
    a value that [Date] reads as year [y] is rejected exactly when the age
    [today - y] is below 13 or above 120. *)
Theorem C2_dateOfBirth_unparsed_accepted (v : jsstring) :
  v <> [] ->
  (getFullYear_of host v = NaN ->
   validateField host formData dateOfBirth v = None)
  /\ (forall y, getFullYear_of host v = Num y ->
      (validateField host formData dateOfBirth v <> None <->
       (getFullYear_today host - y < 13 \/ 120 < getFullYear_today host - y)%Z)).
Proof.
  intros Hv. apply falsy_false in Hv. unfold validateField. rewrite Hv.
  split.
  - intros ->. reflexivity.
  - intros y ->. unfold gt, lt, minus.
    destruct (Z.ltb_spec (getFullYear_today host - y) 13) as [A|A].
    + split; [tauto | discriminate].
    + destruct (Z.ltb_spec 120 (getFullYear_today host - y)) as [B|B].
      * split; [tauto | discriminate].
      * split; [congruence | lia].
Qed.

(** Every message the validator returns is a non-empty string, so the
    test [if (error)] sees exactly the failures. *)
Lemma truthy_validateField (name : FieldName) (v : jsstring) :
  truthy (validateField host formData name v) = true <->
  validateField host formData name v <> None.
Proof.
  unfold validateField.
  destruct name;
    repeat match goal with
           | |- context [if ?b then _ else _] => destruct b
           end;
    (split; [discriminate | intros H; try congruence; reflexivity]).
Qed.

End Validator.

(* ================================================================== *)
(** ** The registration store *)
(* ================================================================== *)

Section Store.

Variable host : Host.

Lemma In_keys (key : FieldName) : In key keys.
Proof. destruct key; simpl; tauto. Qed.

(** [hasErrors] after the loop: some key had a truthy error. *)
Lemma check_keys_hasErrors (fd : FormData) (l : list FieldName)
  (acc : FormErrors * bool) :
  snd (fold_left (check_key host fd) l acc) =
  snd acc || existsb (fun key => truthy (validateField host fd key (get fd key))) l.
Proof.
  revert acc. induction l as [|k l IH]; intros acc; simpl.
  - rewrite orb_false_r. reflexivity.
  - rewrite IH. unfold check_key.
    destruct (truthy (validateField host fd k (get fd k))); simpl.
    + rewrite orb_true_r. reflexivity.
    + reflexivity.
Qed.

Lemma hasErrors_false_iff (fd : FormData) :
  snd (check_all host fd) = false <->
  forall key, validateField host fd key (get fd key) = None.
Proof.
  unfold check_all. rewrite check_keys_hasErrors. simpl snd. rewrite orb_false_l.
  split.
  - intros H key.
    destruct (validateField host fd key (get fd key)) eqn:E; [|reflexivity].
    exfalso.
    assert (T : truthy (validateField host fd key (get fd key)) = true).
    { apply truthy_validateField. congruence. }
    assert (X : existsb (fun key => truthy (validateField host fd key (get fd key)))
                  keys = true).
    { apply existsb_exists. exists key. split; [apply In_keys | exact T]. }
    congruence.
  - intros H. apply not_true_is_false. intros X.
    apply existsb_exists in X as (key & _ & T).
    rewrite H in T. discriminate.
Qed.

(** A submission whose six fields all pass. *)
Lemma handleSubmit_valid (s : AppState) :
  (forall key, validateField host (formData s) key (get (formData s) key) = None) ->
  handleSubmit host s =
  {| users := users s ++ [newUser host (formData s)];
     showSuccess := true;
     formData := every [];
     errors := every None;
     touched := every false;
     registeredUsers :=
       Some (stringify_users (users s ++ [newUser host (formData s)])) |}.
Proof.
  intros H. apply hasErrors_false_iff in H. unfold handleSubmit.
  destruct (check_all host (formData s)) as [newErrors hasErrors].
  simpl in H. subst hasErrors. reflexivity.
Qed.

(** A submission with a failing field. *)
Lemma handleSubmit_invalid (s : AppState) :
  ~ (forall key, validateField host (formData s) key (get (formData s) key) = None) ->
  users (handleSubmit host s) = users s
  /\ registeredUsers (handleSubmit host s) = registeredUsers s
  /\ formData (handleSubmit host s) = formData s.
Proof.
  intros H. rewrite <- hasErrors_false_iff in H. unfold handleSubmit.
  destruct (check_all host (formData s)) as [newErrors hasErrors].
  simpl in H. destruct hasErrors; [simpl; auto | congruence].
Qed.

(** C3.  A submission appends a record exactly when all six fields pass
    [validateField] on the current form values.  When they do, the new
    list is the old one followed by the one new record and the stored item
    is its serialisation; when some field fails, the list and the stored
    item are unchanged. *)
Theorem C3_submit_appends_iff_valid (s : AppState) :
  ((exists r, users (handleSubmit host s) = users s ++ [r]) <->
   (forall key, validateField host (formData s) key (get (formData s) key) = None))
  /\ ((forall key, validateField host (formData s) key (get (formData s) key) = None) ->
      users (handleSubmit host s) = users s ++ [newUser host (formData s)]
      /\ registeredUsers (handleSubmit host s) =
         Some (stringify_users (users s ++ [newUser host (formData s)])))
  /\ (~ (forall key, validateField host (formData s) key (get (formData s) key) = None) ->
      users (handleSubmit host s) = users s
      /\ registeredUsers (handleSubmit host s) = registeredUsers s).
Proof.
  split; [|split].
  - split.
    + intros (r & E).
      destruct (snd (check_all host (formData s))) eqn:B.
      * exfalso.
        assert (N : ~ (forall key,
                   validateField host (formData s) key (get (formData s) key) = None)).
        { rewrite <- hasErrors_false_iff. congruence. }
        apply handleSubmit_invalid in N as (U & _).
        rewrite U in E. apply (f_equal (@List.length UserData)) in E.
        rewrite length_app in E. simpl in E. lia.
      * apply hasErrors_false_iff. exact B.
    + intros H. rewrite (handleSubmit_valid s H). simpl. eauto.
  - intros H. rewrite (handleSubmit_valid s H). simpl. auto.
  - intros H. apply handleSubmit_invalid in H as (U & R & _). auto.
Qed.


End Store.

Section Removal.

Lemma filter_id_absent (id : jsstring) (l : list UserData) :
  (forall u, In u l -> User.id u <> id) ->
  filter (fun user => negb (eqb (User.id user) id)) l = l.
Proof.
  induction l as [|u l IH]; simpl; intros H; [reflexivity|].
  destruct (eqb (User.id u) id) eqn:E; simpl.
  - apply eqb_eq in E. exfalso. apply (H u); auto.
  - rewrite IH; [reflexivity|]. intros v Hv. apply H. auto.
Qed.

Lemma filter_filter_same (A : Type) (f : A -> bool) (l : list A) :
  filter f (filter f l) = filter f l.
Proof.
  induction l as [|a l IH]; simpl; [reflexivity|].
  destruct (f a) eqn:E; simpl; [rewrite E, IH|]; auto.
Qed.

(** C7.  Deleting the same identifier twice leaves the same state (list
    and stored item) as deleting it once; when no record carries the
    identifier the list is unchanged.  The handler is a total function:
    there is no failing case. *)
Theorem C7_delete_idempotent (id : jsstring) (s : AppState) :
  handleDeleteUser id (handleDeleteUser id s) = handleDeleteUser id s
  /\ ((forall u, In u (users s) -> User.id u <> id) ->
      users (handleDeleteUser id s) = users s
      /\ registeredUsers (handleDeleteUser id s) = Some (stringify_users (users s))).
Proof.
  split.
  - unfold handleDeleteUser. simpl. rewrite filter_filter_same. reflexivity.
  - intros H. unfold handleDeleteUser. simpl.
    rewrite (filter_id_absent id (users s) H). auto.
Qed.

End Removal.

(* ================================================================== *)
(** ** Reading back what [JSON.stringify] wrote *)
(* ================================================================== *)

Section RoundTrip.

Local Open Scope N_scope.

Ltac Zify.zify_post_hook ::= Z.to_euclidean_division_equations.

Lemma between_true (lo hi c : N) : lo <= c <= hi -> between lo hi c = true.
Proof.
  intros [A B]. unfold between. apply andb_true_iff.
  split; apply N.leb_le; assumption.
Qed.

Lemma between_false (lo hi c : N) : c < lo \/ hi < c -> between lo hi c = false.
Proof.
  intros H. unfold between. apply andb_false_iff.
  destruct H; [left | right]; apply N.leb_gt; assumption.
Qed.

Lemma hex_value_hex_digit (n : N) : n < 16 -> hex_value (hex_digit n) = Some n.
Proof.
  intros H. unfold hex_digit, hex_value.
  destruct (N.ltb_spec n 10) as [L|L].
  - rewrite between_true by lia. f_equal. lia.
  - rewrite between_false, between_true by lia. f_equal. lia.
Qed.

Lemma hex4_digits (c : N) :
  c < 65536 ->
  hex4 (hex_digit ((c / 4096) mod 16)) (hex_digit ((c / 256) mod 16))
       (hex_digit ((c / 16) mod 16)) (hex_digit (c mod 16)) = Some c.
Proof.
  intros H. unfold hex4.
  rewrite !hex_value_hex_digit by (apply N.mod_lt; discriminate).
  f_equal. lia.
Qed.

Lemma parse_chars_u (h1 h2 h3 h4 : N) (w : jsstring) :
  parse_chars (92 :: 117 :: h1 :: h2 :: h3 :: h4 :: w) =
  match hex4 h1 h2 h3 h4 with
  | Some n => push n (parse_chars w)
  | None => None
  end.
Proof. reflexivity. Qed.

Lemma parse_chars_escape (c : N) (w : jsstring) :
  c < 65536 ->
  parse_chars (UnicodeEscape c ++ w) = push c (parse_chars w).
Proof.
  intros H. unfold UnicodeEscape. cbn [app].
  rewrite parse_chars_u, hex4_digits by exact H. reflexivity.
Qed.

Lemma parse_chars_plain (c : N) (w : jsstring) :
  c <> 34 -> c <> 92 -> 32 <= c ->
  parse_chars (c :: w) = push c (parse_chars w).
Proof.
  intros H1 H2 H3. cbn [parse_chars].
  destruct (N.eqb_spec c 34); [contradiction|].
  destruct (N.eqb_spec c 92); [contradiction|].
  destruct (N.ltb_spec c 32); [lia|]. reflexivity.
Qed.

Lemma parse_chars_quote_unit (c : N) (w : jsstring) :
  parse_chars (quote_unit c ++ w) = push c (parse_chars w).
Proof.
  unfold quote_unit.
  repeat match goal with
         | |- context [if (c =? ?k) then _ else _] =>
             destruct (N.eqb_spec c k); [subst c; reflexivity|]
         end.
  destruct (N.ltb_spec c 32).
  - apply parse_chars_escape. lia.
  - apply parse_chars_plain; assumption.
Qed.

Lemma surrogate_bounds (c : N) :
  is_leading_surrogate c = true \/ is_trailing_surrogate c = true ->
  c <> 34 /\ c <> 92 /\ 32 <= c /\ c < 65536.
Proof.
  unfold is_leading_surrogate, is_trailing_surrogate, between.
  rewrite !andb_true_iff, !N.leb_le. lia.
Qed.

(** A quoted string body reads back as the string it was made from. *)
Lemma parse_chars_quote_units (s rest : jsstring) :
  parse_chars (quote_units s ++ 34 :: rest) = Some (s, rest).
Proof.
  remember (List.length s) as n eqn:En.
  revert s En. induction n as [n IH] using lt_wf_ind. intros s En.
  destruct s as [|c t]; [reflexivity|].
  cbn [quote_units].
  destruct (is_leading_surrogate c) eqn:Hl.
  - destruct (surrogate_bounds c (or_introl Hl)) as (A & B & C & D).
    destruct t as [|d t'].
    + rewrite parse_chars_escape by exact D. reflexivity.
    + destruct (is_trailing_surrogate d) eqn:Hd.
      * destruct (surrogate_bounds d (or_intror Hd)) as (A' & B' & C' & _).
        cbn [app]. rewrite !parse_chars_plain by assumption.
        rewrite (IH (List.length t')) with (s := t');
          [reflexivity | subst n; simpl; lia | reflexivity].
      * rewrite <- app_assoc, parse_chars_escape by exact D.
        rewrite (IH (List.length (d :: t'))) with (s := d :: t');
          [reflexivity | subst n; simpl; lia | reflexivity].
  - destruct (is_trailing_surrogate c) eqn:Ht.
    + destruct (surrogate_bounds c (or_intror Ht)) as (_ & _ & _ & D).
      rewrite <- app_assoc, parse_chars_escape by exact D.
      rewrite (IH (List.length t)) with (s := t);
        [reflexivity | subst n; simpl; lia | reflexivity].
    + rewrite <- app_assoc, parse_chars_quote_unit.
      rewrite (IH (List.length t)) with (s := t);
        [reflexivity | subst n; simpl; lia | reflexivity].
Qed.

Lemma parse_chars_QuoteJSONString (s w : jsstring) :
  exists t, QuoteJSONString s ++ w = 34 :: t /\ parse_chars t = Some (s, w).
Proof.
  exists (quote_units s ++ 34 :: w). split.
  - unfold QuoteJSONString. cbn [app]. rewrite <- app_assoc. reflexivity.
  - apply parse_chars_quote_units.
Qed.

(** One step of each parser on its leading character. *)

Lemma skip_ws_stop (c : N) (t : jsstring) :
  is_json_ws c = false -> skip_ws (c :: t) = c :: t.
Proof. intros H. simpl. rewrite H. reflexivity. Qed.

Lemma parse_value_string (f : nat) (t : jsstring) :
  parse_value (S f) (34 :: t) =
  match parse_chars t with
  | Some (str, rest) => Some (JStr str, rest)
  | None => None
  end.
Proof. reflexivity. Qed.

Lemma parse_value_array (f : nat) (t : jsstring) :
  parse_value (S f) (91 :: t) =
  match skip_ws t with
  | d :: t' =>
      if d =? 93 then Some (JArr [], t')
      else match parse_elements f t with
           | Some (vs, rest) => Some (JArr vs, rest)
           | None => None
           end
  | [] => None
  end.
Proof. reflexivity. Qed.

Lemma parse_value_object (f : nat) (t : jsstring) :
  parse_value (S f) (123 :: t) =
  match skip_ws t with
  | d :: t' =>
      if d =? 125 then Some (JObj [], t')
      else match parse_members f t with
           | Some (ms, rest) => Some (make_object ms, rest)
           | None => None
           end
  | [] => None
  end.
Proof. reflexivity. Qed.

Lemma parse_elements_step (f : nat) (s : jsstring) :
  parse_elements (S f) s =
  match parse_value f s with
  | None => None
  | Some (v, rest) =>
      match skip_ws rest with
      | d :: rest' =>
          if d =? 44 then
            match parse_elements f rest' with
            | Some (vs, rest'') => Some (v :: vs, rest'')
            | None => None
            end
          else if d =? 93 then Some ([v], rest')
          else None
      | [] => None
      end
  end.
Proof. reflexivity. Qed.

Lemma parse_members_step (f : nat) (t : jsstring) :
  parse_members (S f) (34 :: t) =
  match parse_chars t with
  | None => None
  | Some (key, rest) =>
      match skip_ws rest with
      | colon :: rest1 =>
          if colon =? 58 then
            match parse_value f rest1 with
            | None => None
            | Some (v, rest2) =>
                match skip_ws rest2 with
                | d :: rest3 =>
                    if d =? 44 then
                      match parse_members f rest3 with
                      | Some (ms, rest4) => Some ((key, v) :: ms, rest4)
                      | None => None
                      end
                    else if d =? 125 then Some ([(key, v)], rest3)
                    else None
                | [] => None
                end
            end
          else None
      | [] => None
      end
  end.
Proof. reflexivity. Qed.

Lemma member_text_app (k v w : jsstring) :
  member_text (k, v) ++ w =
  34 :: quote_units k ++ 34 :: 58 :: 34 :: quote_units v ++ 34 :: w.
Proof.
  unfold member_text, QuoteJSONString. cbn [fst snd app].
  rewrite <- !app_assoc. cbn [app]. rewrite <- !app_assoc. reflexivity.
Qed.

(** One property followed by [w]: the key and the string value are read,
    then [w] decides whether more properties follow. *)
Lemma parse_members_member (g : nat) (k v w : jsstring) :
  parse_members (S (S g)) (member_text (k, v) ++ w) =
  match skip_ws w with
  | d :: rest3 =>
      if d =? 44 then
        match parse_members (S g) rest3 with
        | Some (ms, rest4) => Some ((k, JStr v) :: ms, rest4)
        | None => None
        end
      else if d =? 125 then Some ([(k, JStr v)], rest3)
      else None
  | [] => None
  end.
Proof.
  rewrite member_text_app, parse_members_step, parse_chars_quote_units.
  rewrite (skip_ws_stop 58) by reflexivity.
  change (58 =? 58) with true. cbv iota.
  rewrite parse_value_string, parse_chars_quote_units. reflexivity.
Qed.

Lemma join_cons2 (x y : jsstring) (rest : list jsstring) :
  join (x :: y :: rest) = x ++ 44 :: join (y :: rest).
Proof. reflexivity. Qed.

Lemma join_member_head (props : list (jsstring * jsstring)) (w : jsstring) :
  props <> [] -> exists t, join (map member_text props) ++ w = 34 :: t.
Proof.
  destruct props as [|[k v] rest]; [congruence|]. intros _.
  destruct rest as [|kv rest].
  - cbn [map join]. rewrite member_text_app. eauto.
  - cbn [map]. rewrite join_cons2, <- app_assoc, member_text_app. eauto.
Qed.

Lemma parse_members_props (props : list (jsstring * jsstring)) :
  forall (g : nat) (w : jsstring),
    props <> [] -> (List.length props <= g)%nat ->
    parse_members (S g) (join (map member_text props) ++ 125 :: w) =
    Some (map (fun kv => (fst kv, JStr (snd kv))) props, w).
Proof.
  induction props as [|[k v] rest IH]; intros g w Hn Hg; [congruence|].
  destruct g as [|g]; [simpl in Hg; lia|].
  destruct rest as [|kv rest].
  - cbn [map join]. rewrite parse_members_member.
    rewrite (skip_ws_stop 125) by reflexivity. reflexivity.
  - cbn [map]. rewrite join_cons2, <- app_assoc. cbn [app].
    rewrite parse_members_member.
    rewrite (skip_ws_stop 44) by reflexivity.
    change (44 =? 44) with true. cbv iota.
    change (member_text kv :: map member_text rest)
      with (map member_text (kv :: rest)).
    rewrite IH; [reflexivity | discriminate | simpl in *; lia].
Qed.

Lemma SerializeJSONObject_app (props : list (jsstring * jsstring)) (w : jsstring) :
  SerializeJSONObject props ++ w = 123 :: join (map member_text props) ++ 125 :: w.
Proof.
  unfold SerializeJSONObject. cbn [app]. rewrite <- app_assoc. reflexivity.
Qed.

(** An object of string properties reads back as the object built from
    the same properties. *)
Lemma parse_value_SerializeJSONObject (props : list (jsstring * jsstring))
  (g : nat) (w : jsstring) :
  props <> [] -> (List.length props <= g)%nat ->
  parse_value (S (S g)) (SerializeJSONObject props ++ w) =
  Some (make_object (map (fun kv => (fst kv, JStr (snd kv))) props), w).
Proof.
  intros Hn Hg. rewrite SerializeJSONObject_app, parse_value_object.
  pose proof (parse_members_props props g w Hn Hg) as P.
  destruct (join_member_head props (125 :: w) Hn) as (t & E).
  rewrite E in P |- *.
  rewrite (skip_ws_stop 34) by reflexivity.
  change (34 =? 125) with false. cbv iota.
  rewrite P. reflexivity.
Qed.

Lemma parse_value_user (g : nat) (u : UserData) (w : jsstring) :
  (6 <= g)%nat ->
  parse_value (S (S g)) (stringify_user u ++ w) = Some (user_value u, w).
Proof.
  intros Hg. unfold stringify_user.
  rewrite parse_value_SerializeJSONObject; [reflexivity | discriminate | exact Hg].
Qed.

Lemma stringify_user_head (u : UserData) (w : jsstring) :
  exists t, stringify_user u ++ w = 123 :: t.
Proof.
  unfold stringify_user. rewrite SerializeJSONObject_app. eauto.
Qed.

Lemma parse_elements_users (l : list UserData) :
  forall (g : nat) (w : jsstring),
    l <> [] -> (List.length l + 7 <= g)%nat ->
    parse_elements (S g) (join (map stringify_user l) ++ 93 :: w) =
    Some (map user_value l, w).
Proof.
  induction l as [|u rest IH]; intros g w Hn Hg; [congruence|].
  rewrite parse_elements_step.
  destruct g as [|[|g]]; [simpl in Hg; lia | simpl in Hg; lia |].
  destruct rest as [|v rest].
  - cbn [map join]. rewrite parse_value_user by (simpl in Hg; lia).
    rewrite (skip_ws_stop 93) by reflexivity. reflexivity.
  - cbn [map]. rewrite join_cons2, <- app_assoc. cbn [app].
    rewrite parse_value_user by (simpl in Hg; lia).
    rewrite (skip_ws_stop 44) by reflexivity.
    change (44 =? 44) with true. cbv iota.
    change (stringify_user v :: map stringify_user rest)
      with (map stringify_user (v :: rest)).
    rewrite IH; [reflexivity | discriminate | simpl in *; lia].
Qed.

Lemma length_join_ge (items : list jsstring) (m : nat) :
  (forall x, In x items -> (m <= List.length x)%nat) ->
  (m * List.length items <= List.length (join items))%nat.
Proof.
  induction items as [|x rest IH]; intros H; [simpl; lia|].
  assert (Hx : (m <= List.length x)%nat) by (apply H; left; reflexivity).
  assert (Hr : (m * List.length rest <= List.length (join rest))%nat).
  { apply IH. intros y Hy. apply H. right. exact Hy. }
  destruct rest as [|y rest].
  - simpl. lia.
  - rewrite join_cons2, length_app. cbn [List.length] in *. lia.
Qed.

Lemma length_member_text (kv : jsstring * jsstring) :
  (5 <= List.length (member_text kv))%nat.
Proof.
  unfold member_text, QuoteJSONString.
  cbn [app List.length]. rewrite !length_app. cbn [List.length].
  rewrite !length_app. cbn [List.length]. lia.
Qed.

Lemma length_stringify_user (u : UserData) :
  (8 <= List.length (stringify_user u))%nat.
Proof.
  unfold stringify_user, SerializeJSONObject.
  cbn [List.length]. rewrite length_app.
  match goal with
  | |- context [join (map member_text ?props)] =>
      pose proof (length_join_ge (map member_text props) 5) as H
  end.
  rewrite length_map in H. cbn [List.length] in *.
  assert (X : forall x, In x (map member_text
     [(js "id", User.id u); (js "fullName", User.fullName u);
      (js "email", User.email u); (js "phone", User.phone u);
      (js "dateOfBirth", User.dateOfBirth u);
      (js "registeredAt", User.registeredAt u)]) ->
     (5 <= List.length x)%nat).
  { intros x Hx. apply in_map_iff in Hx as (kv & <- & _).
    apply length_member_text. }
  specialize (H X). lia.
Qed.

(** What [stringify_users] writes, [JSON.parse] reads back as the same
    list of records. *)
Lemma parse_stringify_users (l : list UserData) :
  parse (stringify_users l) = Some (users_value l).
Proof.
  destruct l as [|u rest]; [reflexivity|].
  unfold parse, stringify_users, SerializeJSONArray, users_value.
  set (l := u :: rest).
  assert (Hlen : (8 * List.length l <= List.length (join (map stringify_user l)))%nat).
  { rewrite <- (length_map stringify_user l). apply length_join_ge.
    intros x Hx. apply in_map_iff in Hx as (v & <- & _).
    apply length_stringify_user. }
  assert (Hn : l <> []) by discriminate.
  assert (Hl : (1 <= List.length l)%nat) by (simpl; lia).
  rewrite parse_value_array.
  assert (E : exists t, join (map stringify_user l) ++ [93] = 123 :: t).
  { subst l. destruct rest as [|v rest].
    - cbn [map join]. apply stringify_user_head.
    - cbn [map]. rewrite join_cons2, <- app_assoc. apply stringify_user_head. }
  destruct E as (t & E).
  cbn [List.length]. rewrite length_app. cbn [List.length].
  pose proof (parse_elements_users l
                (S (List.length (join (map stringify_user l)))) [] Hn) as P.
  replace (List.length (join (map stringify_user l)) + 1)%nat
    with (S (List.length (join (map stringify_user l)))) by lia.
  rewrite E in P |- *.
  rewrite (skip_ws_stop 123) by reflexivity.
  change (123 =? 93) with false. cbv iota.
  rewrite P by lia. reflexivity.
Qed.

End RoundTrip.

(* ================================================================== *)
(** ** The parser never fails for lack of fuel *)
(* ================================================================== *)

Section ParserFuel.

Local Open Scope N_scope.

Lemma skip_ws_length (s : jsstring) :
  (List.length (skip_ws s) <= List.length s)%nat.
Proof.
  induction s as [|c t IH]; simpl; [lia|].
  destruct (is_json_ws c); simpl; lia.
Qed.

Lemma push_length (c : N) (o : option (jsstring * jsstring)) (x r : jsstring) (n : nat) :
  push c o = Some (x, r) ->
  (forall y, o = Some (y, r) -> (List.length r < n)%nat) ->
  (List.length r < n)%nat.
Proof.
  destruct o as [[y r']|]; simpl; [|discriminate].
  intros H K. inversion H; subst. apply (K y). reflexivity.
Qed.

Lemma parse_chars_length (s : jsstring) :
  forall x r, parse_chars s = Some (x, r) -> (List.length r < List.length s)%nat.
Proof.
  remember (List.length s) as n eqn:En. revert s En.
  induction n as [n IH] using lt_wf_ind. intros s En x r H.
  destruct s as [|c t]; [discriminate|]. cbn [parse_chars] in H.
  cbn [List.length] in En.
  destruct (c =? 34).
  { inversion H; subst. lia. }
  destruct (c =? 92).
  - destruct t as [|e t']; [discriminate|]. cbn [List.length] in En.
    destruct (e =? 117).
    + destruct t' as [|h1 [|h2 [|h3 [|h4 t'']]]]; try discriminate.
      cbn [List.length] in En.
      destruct (hex4 h1 h2 h3 h4); [|discriminate].
      destruct (parse_chars t'') as [[y r']|] eqn:E; [|discriminate].
      simpl in H. inversion H; subst.
      pose proof (IH (List.length t'') ltac:(lia) t'' eq_refl y r E). lia.
    + destruct (unescape e); [|discriminate].
      destruct (parse_chars t') as [[y r']|] eqn:E; [|discriminate].
      simpl in H. inversion H; subst.
      pose proof (IH (List.length t') ltac:(lia) t' eq_refl y r E). lia.
  - destruct (c <? 32); [discriminate|].
    destruct (parse_chars t) as [[y r']|] eqn:E; [|discriminate].
    simpl in H. inversion H; subst.
    pose proof (IH (List.length t) ltac:(lia) t eq_refl y r E). lia.
Qed.

Lemma take_digits_length (s : jsstring) :
  forall ds r, take_digits s = (ds, r) -> (List.length r <= List.length s)%nat.
Proof.
  induction s as [|c t IH]; simpl; intros ds r H.
  - inversion H; subst. simpl. lia.
  - destruct (is_digit c).
    + destruct (take_digits t) as [ds' r'] eqn:E. inversion H; subst.
      specialize (IH ds' r eq_refl). lia.
    + inversion H; subst. simpl. lia.
Qed.

Lemma digits1_length (s ds r : jsstring) :
  digits1 s = Some (ds, r) -> (List.length r <= List.length s)%nat.
Proof.
  unfold digits1. destruct (take_digits s) as [ds' r'] eqn:E.
  destruct ds'; [discriminate|]. intros H. inversion H; subst.
  apply (take_digits_length _ _ _ E).
Qed.

Lemma parse_number_length (s x r : jsstring) :
  parse_number s = Some (x, r) -> (List.length r < List.length s)%nat.
Proof.
  unfold parse_number.
  set (p := match s with
            | c :: t => if c =? 45 then ([c], t) else ([], s)
            | [] => ([], s)
            end).
  assert (Hp : (List.length (snd p) <= List.length s)%nat).
  { subst p. destruct s as [|c t]; simpl; [lia|].
    destruct (c =? 45); simpl; lia. }
  destruct p as [sign s1]. simpl in Hp.
  destruct s1 as [|c t]; [discriminate|]. cbn [List.length] in Hp.
  set (ip := if c =? 48 then Some ([c], t)
             else if between 49 57 c
                  then let (ds, rest) := take_digits t in Some (c :: ds, rest)
                  else None).
  assert (Hi : forall i s2, ip = Some (i, s2) ->
                 (List.length s2 <= List.length t)%nat).
  { subst ip. intros i s2. destruct (c =? 48).
    - intros H. inversion H; subst. lia.
    - destruct (between 49 57 c); [|discriminate].
      destruct (take_digits t) as [ds rest] eqn:E. intros H.
      inversion H; subst. apply (take_digits_length _ _ _ E). }
  destruct ip as [[i s2]|]; [|discriminate].
  specialize (Hi i s2 eq_refl).
  set (fp := match s2 with
             | d :: t2 =>
                 if d =? 46 then
                   match digits1 t2 with
                   | Some (ds, rest) => Some (d :: ds, rest)
                   | None => None
                   end
                 else Some ([], s2)
             | [] => Some ([], s2)
             end).
  assert (Hf : forall f s3, fp = Some (f, s3) ->
                 (List.length s3 <= List.length s2)%nat).
  { subst fp. intros f s3. destruct s2 as [|d t2].
    - intros H. inversion H; subst. lia.
    - destruct (d =? 46).
      + destruct (digits1 t2) as [[ds rest]|] eqn:E; [|discriminate].
        intros H. inversion H; subst. apply digits1_length in E. simpl. lia.
      + intros H. inversion H; subst. lia. }
  destruct fp as [[f s3]|]; [|discriminate].
  specialize (Hf f s3 eq_refl).
  match goal with
  | |- match ?e with _ => _ end = _ -> _ => set (ep := e)
  end.
  assert (He : forall x' s4, ep = Some (x', s4) ->
                 (List.length s4 <= List.length s3)%nat).
  { subst ep. intros x' s4. destruct s3 as [|e t3].
    - intros H. inversion H; subst. lia.
    - destruct ((e =? 101) || (e =? 69)).
      + set (q := match t3 with
                  | g :: t4 => if (g =? 43) || (g =? 45) then ([g], t4) else ([], t3)
                  | [] => ([], t3)
                  end).
        assert (Hq : (List.length (snd q) <= List.length t3)%nat).
        { subst q. destruct t3 as [|g t4]; simpl; [lia|].
          destruct ((g =? 43) || (g =? 45)); simpl; lia. }
        destruct q as [sg t4]. simpl in Hq.
        destruct (digits1 t4) as [[ds rest]|] eqn:E; [|discriminate].
        intros H. inversion H; subst. apply digits1_length in E. simpl. lia.
      + intros H. inversion H; subst. lia. }
  destruct ep as [[x' s4]|]; [|discriminate].
  specialize (He x' s4 eq_refl).
  intros H. inversion H; subst. lia.
Qed.

Lemma after_prefix_length (w s r : jsstring) :
  after_prefix w s = Some r -> (List.length r + List.length w = List.length s)%nat.
Proof.
  revert s. induction w as [|a w IH]; intros s; simpl.
  - intros H. inversion H; subst. lia.
  - destruct s as [|c t]; [discriminate|].
    destruct (a =? c); [|discriminate]. intros H. apply IH in H. simpl. lia.
Qed.

Lemma parse_value_unfold (fuel' : nat) (s : jsstring) :
  parse_value (S fuel') s =
      match skip_ws s with
      | [] => None
      | c :: t =>
          if (c =? 34)%N then
            match parse_chars t with
            | Some (str, rest) => Some (JStr str, rest)
            | None => None
            end
          else if (c =? 91)%N then
            match skip_ws t with
            | d :: t' =>
                if (d =? 93)%N then Some (JArr [], t')
                else match parse_elements fuel' t with
                     | Some (vs, rest) => Some (JArr vs, rest)
                     | None => None
                     end
            | [] => None
            end
          else if (c =? 123)%N then
            match skip_ws t with
            | d :: t' =>
                if (d =? 125)%N then Some (JObj [], t')
                else match parse_members fuel' t with
                     | Some (ms, rest) => Some (make_object ms, rest)
                     | None => None
                     end
            | [] => None
            end
          else if (c =? 116)%N then
            match after_prefix (js "true") (c :: t) with
            | Some rest => Some (JBool true, rest)
            | None => None
            end
          else if (c =? 102)%N then
            match after_prefix (js "false") (c :: t) with
            | Some rest => Some (JBool false, rest)
            | None => None
            end
          else if (c =? 110)%N then
            match after_prefix (js "null") (c :: t) with
            | Some rest => Some (JNull, rest)
            | None => None
            end
          else
            match parse_number (c :: t) with
            | Some (lexeme, rest) => Some (JNum lexeme, rest)
            | None => None
            end
      end.
Proof. reflexivity. Qed.

Lemma parse_members_unfold (fuel' : nat) (s : jsstring) :
  parse_members (S fuel') s =
      match skip_ws s with
      | q :: t =>
          if (q =? 34)%N then
            match parse_chars t with
            | None => None
            | Some (key, rest) =>
                match skip_ws rest with
                | colon :: rest1 =>
                    if (colon =? 58)%N then
                      match parse_value fuel' rest1 with
                      | None => None
                      | Some (v, rest2) =>
                          match skip_ws rest2 with
                          | d :: rest3 =>
                              if (d =? 44)%N then
                                match parse_members fuel' rest3 with
                                | Some (ms, rest4) => Some ((key, v) :: ms, rest4)
                                | None => None
                                end
                              else if (d =? 125)%N then Some ([(key, v)], rest3)
                              else None
                          | [] => None
                          end
                      end
                    else None
                | [] => None
                end
            end
          else None
      | [] => None
      end.
Proof. reflexivity. Qed.

Ltac replay :=
  repeat match goal with
         | E : ?x = _ |- context [?x] => rewrite E
         end.

Lemma parse_value_within (f : nat) :
  within parse_elements f -> within parse_members f -> within parse_value (S f).
Proof.
  intros IHe IHm s v r H. rewrite parse_value_unfold in H.
  pose proof (skip_ws_length s) as Ls.
  destruct (skip_ws s) as [|c t] eqn:Es; [discriminate|].
  cbn [List.length] in Ls.
  assert (K : forall n, (n <= List.length t)%nat -> List.length r = n ->
     (forall g, parse_value (S g) s = Some (v, r)) ->
     (List.length r < List.length s)%nat
     /\ forall f', (List.length s - List.length r <= f')%nat ->
                   parse_value f' s = Some (v, r)).
  { intros n Hn En A. split; [lia|]. intros [|g] Hg; [lia|]. apply A. }
  destruct (c =? 34) eqn:E1.
  { destruct (parse_chars t) as [[str rest]|] eqn:Ec; [|discriminate].
    inversion H; subst. apply parse_chars_length in Ec as Lc.
    apply (K (List.length r)); [lia | reflexivity|].
    intros g. rewrite parse_value_unfold. replay. reflexivity. }
  destruct (c =? 91) eqn:E2.
  { pose proof (skip_ws_length t) as Lt.
    destruct (skip_ws t) as [|d t'] eqn:Et; [discriminate|].
    cbn [List.length] in Lt.
    destruct (d =? 93) eqn:E3.
    - inversion H; subst.
      apply (K (List.length r)); [lia | reflexivity|].
      intros g. rewrite parse_value_unfold. replay. reflexivity.
    - destruct (parse_elements f t) as [[vs rest]|] eqn:Ee; [|discriminate].
      inversion H; subst. apply IHe in Ee as [Le Me].
      split; [lia|]. intros [|g] Hg; [lia|].
      rewrite parse_value_unfold. replay. rewrite Me by lia. reflexivity. }
  destruct (c =? 123) eqn:E3.
  { pose proof (skip_ws_length t) as Lt.
    destruct (skip_ws t) as [|d t'] eqn:Et; [discriminate|].
    cbn [List.length] in Lt.
    destruct (d =? 125) eqn:E4.
    - inversion H; subst.
      apply (K (List.length r)); [lia | reflexivity|].
      intros g. rewrite parse_value_unfold. replay. reflexivity.
    - destruct (parse_members f t) as [[ms rest]|] eqn:Ee; [|discriminate].
      inversion H; subst. apply IHm in Ee as [Le Me].
      split; [lia|]. intros [|g] Hg; [lia|].
      rewrite parse_value_unfold. replay. rewrite Me by lia. reflexivity. }
  destruct (c =? 116) eqn:E4.
  { destruct (after_prefix (js "true") (c :: t)) as [rest|] eqn:Ea; [|discriminate].
    inversion H; subst. apply after_prefix_length in Ea as La.
    cbn [List.length js list_ascii_of_string map] in La.
    apply (K (List.length r)); [lia | reflexivity|].
    intros g. rewrite parse_value_unfold. replay. reflexivity. }
  destruct (c =? 102) eqn:E5.
  { destruct (after_prefix (js "false") (c :: t)) as [rest|] eqn:Ea; [|discriminate].
    inversion H; subst. apply after_prefix_length in Ea as La.
    cbn [List.length js list_ascii_of_string map] in La.
    apply (K (List.length r)); [lia | reflexivity|].
    intros g. rewrite parse_value_unfold. replay. reflexivity. }
  destruct (c =? 110) eqn:E6.
  { destruct (after_prefix (js "null") (c :: t)) as [rest|] eqn:Ea; [|discriminate].
    inversion H; subst. apply after_prefix_length in Ea as La.
    cbn [List.length js list_ascii_of_string map] in La.
    apply (K (List.length r)); [lia | reflexivity|].
    intros g. rewrite parse_value_unfold. replay. reflexivity. }
  destruct (parse_number (c :: t)) as [[lexeme rest]|] eqn:En; [|discriminate].
  inversion H; subst. apply parse_number_length in En as Ln.
  cbn [List.length] in Ln.
  apply (K (List.length r)); [lia | reflexivity|].
  intros g. rewrite parse_value_unfold. replay. reflexivity.
Qed.

Lemma parse_elements_within (f : nat) :
  within parse_value f -> within parse_elements f -> within parse_elements (S f).
Proof.
  intros IHv IHe s vs r H. rewrite parse_elements_step in H.
  destruct (parse_value f s) as [[v rest]|] eqn:Ev; [|discriminate].
  apply IHv in Ev as [Lv Mv].
  pose proof (skip_ws_length rest) as Lr.
  destruct (skip_ws rest) as [|d rest'] eqn:Er; [discriminate|].
  cbn [List.length] in Lr.
  destruct (d =? 44) eqn:E1.
  - destruct (parse_elements f rest') as [[ws rest'']|] eqn:Ee; [|discriminate].
    inversion H; subst. apply IHe in Ee as [Le Me].
    split; [lia|]. intros [|g] Hg; [lia|].
    rewrite parse_elements_step, Mv by lia. replay.
    rewrite Me by lia. reflexivity.
  - destruct (d =? 93) eqn:E2; [|discriminate].
    inversion H; subst.
    split; [lia|]. intros [|g] Hg; [lia|].
    rewrite parse_elements_step, Mv by lia. replay. reflexivity.
Qed.

Lemma parse_members_within (f : nat) :
  within parse_value f -> within parse_members f -> within parse_members (S f).
Proof.
  intros IHv IHm s ms r H. rewrite parse_members_unfold in H.
  pose proof (skip_ws_length s) as Ls.
  destruct (skip_ws s) as [|q t] eqn:Es; [discriminate|].
  cbn [List.length] in Ls.
  destruct (q =? 34) eqn:E1; [|discriminate].
  destruct (parse_chars t) as [[key rest]|] eqn:Ec; [|discriminate].
  apply parse_chars_length in Ec as Lc.
  pose proof (skip_ws_length rest) as Lr.
  destruct (skip_ws rest) as [|colon rest1] eqn:Er; [discriminate|].
  cbn [List.length] in Lr.
  destruct (colon =? 58) eqn:E2; [|discriminate].
  destruct (parse_value f rest1) as [[v rest2]|] eqn:Ev; [|discriminate].
  apply IHv in Ev as [Lv Mv].
  pose proof (skip_ws_length rest2) as Lr2.
  destruct (skip_ws rest2) as [|d rest3] eqn:Er2; [discriminate|].
  cbn [List.length] in Lr2.
  destruct (d =? 44) eqn:E3.
  - destruct (parse_members f rest3) as [[ms' rest4]|] eqn:Em; [|discriminate].
    inversion H; subst. apply IHm in Em as [Lm Mm].
    split; [lia|]. intros [|g] Hg; [lia|].
    rewrite parse_members_unfold. replay. rewrite Mv by lia. replay.
    rewrite Mm by lia. reflexivity.
  - destruct (d =? 125) eqn:E4; [|discriminate].
    inversion H; subst.
    split; [lia|]. intros [|g] Hg; [lia|].
    rewrite parse_members_unfold. replay. rewrite Mv by lia. replay.
    reflexivity.
Qed.

Lemma parsers_within (f : nat) :
  within parse_value f /\ within parse_elements f /\ within parse_members f.
Proof.
  induction f as [|f (Hv & He & Hm)].
  - split; [|split]; intros s v r H; discriminate H.
  - split; [|split].
    + apply parse_value_within; assumption.
    + apply parse_elements_within; assumption.
    + apply parse_members_within; assumption.
Qed.

(** The fuel [parse] gives is never the reason for a failure. *)
Lemma parse_fuel_enough (f : nat) (s : jsstring) (v : json) (r : jsstring) :
  parse_value f s = Some (v, r) ->
  parse_value (S (List.length s)) s = Some (v, r).
Proof.
  intros H. destruct (parsers_within f) as (Hv & _).
  destruct (Hv s v r H) as [_ M]. apply M. lia.
Qed.

Lemma parse_None_any_fuel (text : jsstring) :
  parse text = None ->
  forall f v r, parse_value f text = Some (v, r) -> skip_ws r <> [].
Proof.
  intros H f v r P E. apply parse_fuel_enough in P.
  unfold parse in H. rewrite P, E in H. discriminate.
Qed.

End ParserFuel.

(* ================================================================== *)
(** ** Start-up load and the stored item *)
(* ================================================================== *)

Section Load.

Lemma user_value_inj (u v : UserData) : user_value u = user_value v -> u = v.
Proof.
  destruct u, v. unfold user_value. cbn [User.id User.fullName User.email
    User.phone User.dateOfBirth User.registeredAt].
  intros H. inversion H. reflexivity.
Qed.

Lemma stringify_users_not_empty (l : list UserData) :
  falsy (stringify_users l) = false.
Proof. reflexivity. Qed.

(** Loading what the handlers stored gives back the list they stored. *)
Lemma loadUsers_stringify_users (l : list UserData) :
  loadUsers (Some (stringify_users l)) = Returns (users_value l).
Proof.
  unfold loadUsers. rewrite stringify_users_not_empty, parse_stringify_users.
  reflexivity.
Qed.

(** C1 (as the code has it).  With no stored item, or an empty one, the
    list stays empty and the effect returns; a non-empty item that parses
    becomes the list; for a non-empty item that does not parse the
    [SyntaxError] of [JSON.parse] leaves the effect: nothing catches it. *)
Theorem C1_load_cases (item : option jsstring) :
  (item = None \/ item = Some [] -> loadUsers item = Returns (JArr []))
  /\ (forall text v, item = Some text -> text <> [] -> parse text = Some v ->
      loadUsers item = Returns v)
  /\ (forall text, item = Some text -> text <> [] -> parse text = None ->
      loadUsers item = Throws SyntaxError).
Proof.
  split; [|split].
  - intros [-> | ->]; reflexivity.
  - intros text v -> Hn Hp. apply falsy_false in Hn.
    unfold loadUsers. rewrite Hn, Hp. reflexivity.
  - intros text -> Hn Hp. apply falsy_false in Hn.
    unfold loadUsers. rewrite Hn, Hp. reflexivity.
Qed.

(** No amount of fuel makes a value out of this text. *)
Lemma oops_never_parses (fuel : nat) : parse_value fuel (js "{oops") = None.
Proof. destruct fuel as [|[|fuel]]; reflexivity. Qed.

(** C8.  After a record is appended, the stored item parses back to the
    whole updated list, which contains the record. *)
Theorem C8_append_round_trip (l : list UserData) (r : UserData) :
  exists items,
    loadUsers (Some (stringify_users (l ++ [r]))) = Returns (JArr items)
    /\ items = map user_value (l ++ [r])
    /\ In (user_value r) items.
Proof.
  exists (map user_value (l ++ [r])). split; [|split].
  - apply loadUsers_stringify_users.
  - reflexivity.
  - apply in_map. apply in_or_app. right. left. reflexivity.
Qed.

(** The same along the submit path: reloading after a successful
    submission finds the new record. *)
Lemma submit_then_reload (host : Host) (s : AppState) :
  (forall key, validateField host (formData s) key (get (formData s) key) = None) ->
  loadUsers (registeredUsers (handleSubmit host s)) =
    Returns (users_value (users s ++ [newUser host (formData s)])).
Proof.
  intros H. rewrite (handleSubmit_valid host s H). simpl registeredUsers.
  apply loadUsers_stringify_users.
Qed.

(** C9.  Two successful submissions whose forms agree on [fullName],
    [email], [phone] and [dateOfBirth] append records that agree on those
    four fields whatever the two passwords are; a record has no property
    named [password] or [confirmPassword]; with the same clock readings
    and the same list, the two stored items are the same text. *)
Theorem C9_password_not_stored (host1 host2 : Host) (s1 s2 : AppState) :
  (forall key, validateField host1 (formData s1) key (get (formData s1) key) = None) ->
  (forall key, validateField host2 (formData s2) key (get (formData s2) key) = None) ->
  get (formData s1) fullName = get (formData s2) fullName ->
  get (formData s1) email = get (formData s2) email ->
  get (formData s1) phone = get (formData s2) phone ->
  get (formData s1) dateOfBirth = get (formData s2) dateOfBirth ->
  exists r1 r2,
    users (handleSubmit host1 s1) = users s1 ++ [r1]
    /\ users (handleSubmit host2 s2) = users s2 ++ [r2]
    /\ User.fullName r1 = User.fullName r2
    /\ User.email r1 = User.email r2
    /\ User.phone r1 = User.phone r2
    /\ User.dateOfBirth r1 = User.dateOfBirth r2
    /\ (exists props, user_value r1 = JObj props
        /\ ~ In (js "password") (map fst props)
        /\ ~ In (js "confirmPassword") (map fst props))
    /\ loadUsers (registeredUsers (handleSubmit host1 s1)) =
       Returns (JArr (map user_value (users s1 ++ [r1])))
    /\ (Date_now host1 = Date_now host2 ->
        toISOString_now host1 = toISOString_now host2 ->
        r1 = r2
        /\ (users s1 = users s2 ->
            registeredUsers (handleSubmit host1 s1) =
            registeredUsers (handleSubmit host2 s2))).
Proof.
  intros V1 V2 Hn He Hp Hd.
  rewrite (handleSubmit_valid host1 s1 V1), (handleSubmit_valid host2 s2 V2).
  exists (newUser host1 (formData s1)), (newUser host2 (formData s2)).
  assert (R : Date_now host1 = Date_now host2 ->
              toISOString_now host1 = toISOString_now host2 ->
              newUser host1 (formData s1) = newUser host2 (formData s2)).
  { intros Hnow Hiso. unfold newUser.
    rewrite Hn, He, Hp, Hd, Hnow, Hiso. reflexivity. }
  cbn [users registeredUsers].
  split; [reflexivity|]. split; [reflexivity|].
  split; [exact Hn|]. split; [exact He|]. split; [exact Hp|].
  split; [exact Hd|]. split; [|split].
  - eexists. split; [reflexivity|]. split.
    + cbn [map fst]. intros H.
      repeat (destruct H as [H | H]; [discriminate H|]). exact H.
    + cbn [map fst]. intros H.
      repeat (destruct H as [H | H]; [discriminate H|]). exact H.
  - apply loadUsers_stringify_users.
  - intros Hnow Hiso. split; [exact (R Hnow Hiso)|].
    intros U. rewrite U, (R Hnow Hiso). reflexivity.
Qed.

End Load.

(* ================================================================== *)
(** ** The theorems at concrete inputs *)
(* ================================================================== *)

Section Examples.

Ltac all_keys_pass := intros key; destruct key; vm_compute; reflexivity.

(** The three scenarios of the specification. *)

Example scenario_valid_submission :
  check_all exampleHost exampleForm = (every None, false)
  /\ users (handleSubmit exampleHost (formState [] exampleForm)) =
     [newUser exampleHost exampleForm].
Proof. split; vm_compute; reflexivity. Qed.

Example scenario_password_without_uppercase :
  validateField exampleHost weakPasswordForm password (js "abcdefgh") =
    Some (js "Password must contain an uppercase letter")
  /\ users (handleSubmit exampleHost (formState [] weakPasswordForm)) = [].
Proof. split; vm_compute; reflexivity. Qed.

Example scenario_age_ten :
  validateField exampleHost exampleForm dateOfBirth (js "2015-06-30") =
    Some (js "You must be at least 13 years old").
Proof. vm_compute. reflexivity. Qed.

(** C1, refuted as stated: an item that is not JSON makes the start-up
    effect throw instead of leaving the empty list. *)
Lemma C1_unparsable_item_throws :
  parse (js "{oops") = None
  /\ loadUsers (Some (js "{oops")) = Throws SyntaxError
  /\ loadUsers (Some (js "{oops")) <> Returns (JArr []).
Proof. split; [|split]; [reflexivity | reflexivity | discriminate]. Qed.

Lemma C1_load_cases_witness :
  loadUsers None = Returns (JArr [])
  /\ loadUsers (Some (stringify_users [exampleUser])) =
     Returns (users_value [exampleUser])
  /\ loadUsers (Some (js "{oops")) = Throws SyntaxError.
Proof.
  split; [|split].
  - apply (proj1 (C1_load_cases None)). left. reflexivity.
  - apply (proj1 (proj2 (C1_load_cases (Some (stringify_users [exampleUser]))))
             (stringify_users [exampleUser]) (users_value [exampleUser])).
    + reflexivity.
    + discriminate.
    + vm_compute. reflexivity.
  - apply (proj2 (proj2 (C1_load_cases (Some (js "{oops")))) (js "{oops")).
    + reflexivity.
    + discriminate.
    + vm_compute. reflexivity.
Defined.

(** C2, refuted as stated: a non-empty value that is not a date passes
    the date check. *)
Lemma C2_not_a_date_is_accepted :
  js "hello" <> []
  /\ getFullYear_of exampleHost (js "hello") = NaN
  /\ validateField exampleHost exampleForm dateOfBirth (js "hello") = None.
Proof. split; [|split]; [discriminate | reflexivity | reflexivity]. Qed.

Lemma C2_dateOfBirth_unparsed_accepted_witness :
  validateField exampleHost exampleForm dateOfBirth (js "not a date") = None
  /\ (validateField exampleHost exampleForm dateOfBirth (js "2015-06-30") <> None <->
      (getFullYear_today exampleHost - 2015 < 13
       \/ 120 < getFullYear_today exampleHost - 2015)%Z).
Proof.
  split.
  - apply (proj1 (C2_dateOfBirth_unparsed_accepted exampleHost exampleForm
                   (js "not a date") ltac:(discriminate))).
    reflexivity.
  - apply (proj2 (C2_dateOfBirth_unparsed_accepted exampleHost exampleForm
                   (js "2015-06-30") ltac:(discriminate)) 2015%Z).
    reflexivity.
Defined.

Lemma C3_submit_appends_iff_valid_witness :
  (users (handleSubmit exampleHost (formState [exampleUser] exampleForm)) =
     [exampleUser; newUser exampleHost exampleForm]
   /\ registeredUsers (handleSubmit exampleHost (formState [exampleUser] exampleForm)) =
      Some (stringify_users [exampleUser; newUser exampleHost exampleForm]))
  /\ (users (handleSubmit exampleHost (formState [exampleUser] weakPasswordForm)) =
        [exampleUser]
      /\ registeredUsers (handleSubmit exampleHost (formState [exampleUser] weakPasswordForm)) =
         Some (stringify_users [exampleUser])).
Proof.
  split.
  - apply (proj1 (proj2 (C3_submit_appends_iff_valid exampleHost
                           (formState [exampleUser] exampleForm)))).
    all_keys_pass.
  - apply (proj2 (proj2 (C3_submit_appends_iff_valid exampleHost
                           (formState [exampleUser] weakPasswordForm)))).
    intros H. specialize (H password). vm_compute in H. discriminate H.
Defined.

Lemma C7_delete_idempotent_witness :
  users (handleDeleteUser (js "42") (formState [exampleUser] exampleForm)) =
    [exampleUser]
  /\ registeredUsers (handleDeleteUser (js "42") (formState [exampleUser] exampleForm)) =
     Some (stringify_users [exampleUser]).
Proof.
  apply (proj2 (C7_delete_idempotent (js "42") (formState [exampleUser] exampleForm))).
  intros u [<- | []]. vm_compute. discriminate.
Defined.

Lemma C9_password_not_stored_witness :
  exists r1 r2,
    users (handleSubmit exampleHost (formState [] exampleForm)) = [] ++ [r1]
    /\ users (handleSubmit exampleHost (formState [] otherPasswordForm)) = [] ++ [r2]
    /\ r1 = r2
    /\ registeredUsers (handleSubmit exampleHost (formState [] exampleForm)) =
       registeredUsers (handleSubmit exampleHost (formState [] otherPasswordForm)).
Proof.
  destruct (C9_password_not_stored exampleHost exampleHost
              (formState [] exampleForm) (formState [] otherPasswordForm))
    as (r1 & r2 & U1 & U2 & _ & _ & _ & _ & _ & _ & Same).
  - all_keys_pass.
  - all_keys_pass.
  - reflexivity.
  - reflexivity.
  - reflexivity.
  - reflexivity.
  - exists r1, r2. destruct (Same eq_refl eq_refl) as [E S].
    split; [exact U1|]. split; [exact U2|]. split; [exact E|].
    apply S. reflexivity.
Defined.


(** The padded name passes although only its trimmed form was measured. *)
Example padded_name_passes :
  validateField exampleHost paddedForm fullName (js " Jo ") = None
  /\ trim (js " Jo ") = js "Jo".
Proof. split; vm_compute; reflexivity. Qed.

End Examples.

(* ================================================================== *)
(** ** More on the validator: e-mail, phone, required fields *)
(* ================================================================== *)

Section ValidatorMore.

Local Open Scope N_scope.

Variable host : Host.
Variable formData : FormData.

Lemma Lang_Some1_Class (p : N -> bool) (s : jsstring) :
  Lang (Some1 (Class p)) s <-> s <> [] /\ forallb p s = true.
Proof. rewrite <- test_whole_Lang. apply test_whole_Some1_Class. Qed.

Lemma Lang_Lit (c : N) (s : jsstring) : Lang (Lit c) s <-> s = [c].
Proof.
  unfold Lit. split.
  - intros H. apply Lang_Class_inv in H as (d & -> & E).
    apply N.eqb_eq in E. subst. reflexivity.
  - intros ->. constructor. apply N.eqb_refl.
Qed.

Lemma Lang_Seq_iff (r1 r2 : regex) (s : jsstring) :
  Lang (Seq r1 r2) s <->
  exists s1 s2, s = s1 ++ s2 /\ Lang r1 s1 /\ Lang r2 s2.
Proof.
  split; [apply Lang_Seq_inv|].
  intros (s1 & s2 & -> & H1 & H2). constructor; assumption.
Qed.

Lemma Lang_Opt (r : regex) (s : jsstring) :
  Lang (Opt r) s <-> s = [] \/ Lang r s.
Proof.
  unfold Opt. split.
  - intros H. inversion H; subst.
    + left. match goal with X : Lang Empty _ |- _ => inversion X end. reflexivity.
    + right. assumption.
  - intros [-> | H]; [apply L_OrL; constructor | apply L_OrR; exact H].
Qed.

(** The language of the e-mail pattern. *)
Lemma Lang_email_pattern (v : jsstring) :
  Lang email_pattern v <->
  exists a b c,
    v = a ++ 64 :: b ++ 46 :: c
    /\ a <> [] /\ b <> [] /\ c <> []
    /\ forallb not_space_at a = true
    /\ forallb not_space_at b = true
    /\ forallb not_space_at c = true.
Proof.
  unfold email_pattern. split.
  - intros H.
    apply Lang_Seq_inv in H as (a & w1 & -> & Ha & H).
    apply Lang_Seq_inv in H as (x & w2 & -> & Hx & H).
    apply Lang_Seq_inv in H as (b & w3 & -> & Hb & H).
    apply Lang_Seq_inv in H as (y & c & -> & Hy & Hc).
    apply Lang_Lit in Hx, Hy. subst x y.
    apply Lang_Some1_Class in Ha as [Ha1 Ha2].
    apply Lang_Some1_Class in Hb as [Hb1 Hb2].
    apply Lang_Some1_Class in Hc as [Hc1 Hc2].
    exists a, b, c. repeat split; assumption.
  - intros (a & b & c & -> & Ha & Hb & Hc & Fa & Fb & Fc).
    change (a ++ 64 :: b ++ 46 :: c) with (a ++ [64] ++ b ++ [46] ++ c).
    constructor; [apply Lang_Some1_Class; auto|].
    constructor; [apply Lang_Lit; reflexivity|].
    constructor; [apply Lang_Some1_Class; auto|].
    constructor; [apply Lang_Lit; reflexivity|].
    apply Lang_Some1_Class; auto.
Qed.

Lemma not_all_space (v : jsstring) (c : N) :
  In c v -> is_space c = false -> falsy (trim v) = false.
Proof.
  intros Hin Hc. apply falsy_false. intros E.
  apply trim_nil_iff in E. rewrite forallb_forall in E.
  rewrite (E c Hin) in Hc. discriminate.
Qed.

Lemma email_accepted_Lang (v : jsstring) :
  validateField host formData email v = None <-> Lang email_pattern v.
Proof.
  rewrite <- test_whole_Lang.
  unfold validateField.
  destruct (test_whole email_pattern v) eqn:T.
  - apply test_whole_Lang, Lang_email_pattern in T
      as (a & b & c & -> & _).
    rewrite (not_all_space (a ++ 64 :: b ++ 46 :: c) 64);
      [simpl; tauto | apply in_or_app; right; left; reflexivity | reflexivity].
  - destruct (falsy (trim v)); simpl; split; discriminate.
Qed.

(** X1.  An e-mail address is accepted exactly when it reads
    [a@b.c] with [a], [b] and [c] non-empty and free of white space and
    of [@]; dots are allowed inside the three parts. *)
Theorem X1_email_valid_iff (v : jsstring) :
  validateField host formData email v = None <->
  exists a b c,
    v = a ++ 64 :: b ++ 46 :: c
    /\ a <> [] /\ b <> [] /\ c <> []
    /\ forallb not_space_at a = true
    /\ forallb not_space_at b = true
    /\ forallb not_space_at c = true.
Proof. rewrite email_accepted_Lang. apply Lang_email_pattern. Qed.

(** X2.  An accepted e-mail address contains exactly one [@] and no white
    space. *)
Theorem X2_email_one_at_no_space (v : jsstring) :
  validateField host formData email v = None ->
  count_occ N.eq_dec v 64 = 1%nat /\ forallb (fun c => negb (is_space c)) v = true.
Proof.
  intros H. apply email_accepted_Lang, Lang_email_pattern in H
    as (a & b & c & -> & _ & _ & _ & Fa & Fb & Fc).
  assert (Z : forall l, forallb not_space_at l = true ->
              count_occ N.eq_dec l 64 = 0%nat
              /\ forallb (fun c => negb (is_space c)) l = true).
  { induction l as [|x l IH]; simpl; [auto|]. intros F.
    apply andb_true_iff in F as [Fx Fl]. destruct (IH Fl) as [I1 I2].
    unfold not_space_at in Fx. apply negb_true_iff, orb_false_iff in Fx as [S A].
    apply N.eqb_neq in A. rewrite S, I2. simpl.
    destruct (N.eq_dec x 64); [contradiction | auto]. }
  destruct (Z a Fa) as [A1 A2], (Z b Fb) as [B1 B2], (Z c Fc) as [C1 C2].
  split.
  - rewrite count_occ_app. cbn [count_occ].
    destruct (N.eq_dec 64 64); [|congruence].
    rewrite count_occ_app. cbn [count_occ].
    destruct (N.eq_dec 46 64); [discriminate|]. lia.
  - rewrite forallb_app. cbn [forallb]. rewrite forallb_app. cbn [forallb].
    rewrite A2, B2, C2. reflexivity.
Qed.

Lemma digit_not_space (c : N) : is_digit c = true -> is_space c = false.
Proof.
  unfold is_digit, is_space, between. intros H.
  apply andb_true_iff in H as [A B]. apply N.leb_le in A, B.
  apply not_true_is_false. intros S.
  rewrite !orb_true_iff, !andb_true_iff, !N.leb_le, !N.eqb_eq in S. lia.
Qed.

Lemma filter_digit_exists (v : jsstring) :
  (1 <= List.length (digits_only v))%nat ->
  exists c, In c v /\ is_digit c = true.
Proof.
  unfold digits_only. destruct (filter is_digit v) as [|c t] eqn:E.
  - simpl. lia.
  - intros _. exists c. apply filter_In. rewrite E. left. reflexivity.
Qed.

(** X3.  A phone number is accepted exactly when it is an optional
    leading [+] followed by one or more digits, white space, hyphens and
    parentheses, ten or more of them digits. *)
Theorem X3_phone_valid_iff (v : jsstring) :
  validateField host formData phone v = None <->
  (exists body,
     (v = body \/ v = 43 :: body)
     /\ body <> [] /\ forallb phone_unit body = true)
  /\ (10 <= List.length (digits_only v))%nat.
Proof.
  assert (P : test_whole phone_pattern v = true <->
              exists body, (v = body \/ v = 43 :: body)
                           /\ body <> [] /\ forallb phone_unit body = true).
  { rewrite test_whole_Lang. unfold phone_pattern.
    rewrite Lang_Seq_iff. split.
    - intros (s1 & body & -> & H1 & H2).
      apply Lang_Some1_Class in H2 as [B1 B2].
      apply Lang_Opt in H1 as [-> | H1].
      + exists body. auto.
      + apply Lang_Lit in H1. subst s1. exists body. auto.
    - intros (body & [-> | ->] & B1 & B2).
      + exists [], body. rewrite Lang_Opt, Lang_Some1_Class. auto.
      + exists [43], body. rewrite Lang_Opt, Lang_Lit, Lang_Some1_Class. auto. }
  rewrite <- P. unfold validateField.
  destruct (Nat.ltb_spec (List.length (digits_only v)) 10) as [L|L].
  - destruct (falsy (trim v)), (test_whole phone_pattern v); simpl;
      split; try discriminate; intros [_ H]; lia.
  - destruct (filter_digit_exists v ltac:(lia)) as (c & Hin & Hd).
    rewrite (not_all_space v c Hin (digit_not_space c Hd)).
    destruct (test_whole phone_pattern v); simpl; split;
      try discriminate; try tauto; intros [H _]; discriminate.
Qed.

(** X4.  Every field is required.  The first message of a field is
    returned exactly when the value is empty or, for the three fields
    checked after trimming ([fullName], [email], [phone]), made of white
    space only. *)
Theorem X4_required_iff (name : FieldName) (v : jsstring) :
  validateField host formData name v = Some (requiredMessage name) <->
  match name with
  | fullName | email | phone => forallb is_space v = true
  | password | confirmPassword | dateOfBirth => v = []
  end.
Proof.
  destruct name; unfold validateField, requiredMessage;
    rewrite <- ?trim_nil_iff, <- falsy_nil;
    match goal with
    | |- context [if falsy ?x then _ else _] => destruct (falsy x)
    end;
    try (split; reflexivity);
    repeat match goal with
           | |- context [if ?b then _ else _] => destruct b
           end;
    (split; [intros H; vm_compute in H; discriminate H | discriminate]).
Qed.

(** What [trim] keeps: a factor of the string, with white space on both
    sides and none at either end. *)

Lemma trimStart_split (s : jsstring) :
  exists pre, s = pre ++ trimStart s /\ forallb is_space pre = true.
Proof.
  induction s as [|c t (pre & E & F)]; simpl.
  - exists []. auto.
  - destruct (is_space c) eqn:Ec.
    + exists (c :: pre). simpl. rewrite Ec, F. split; [congruence | reflexivity].
    + exists []. auto.
Qed.

Lemma trimEnd_split (s : jsstring) :
  exists post, s = trimEnd s ++ post /\ forallb is_space post = true.
Proof.
  unfold trimEnd. destruct (trimStart_split (rev s)) as (pre & E & F).
  exists (rev pre). split.
  - rewrite <- rev_app_distr, <- E, rev_involutive. reflexivity.
  - apply forallb_forall. intros x Hx. apply in_rev in Hx.
    rewrite forallb_forall in F. auto.
Qed.

Lemma trimEnd_last (s t : jsstring) (d : N) :
  trimEnd s = t ++ [d] -> is_space d = false.
Proof.
  unfold trimEnd. intros H. apply (f_equal (@rev N)) in H.
  rewrite rev_involutive, rev_app_distr in H. simpl in H.
  apply trimStart_head in H. exact H.
Qed.

Lemma trim_split (v : jsstring) :
  exists pre post,
    v = pre ++ trim v ++ post
    /\ forallb is_space pre = true /\ forallb is_space post = true.
Proof.
  destruct (trimStart_split v) as (pre & E & F).
  destruct (trimEnd_split (trimStart v)) as (post & E' & F').
  exists pre, post. unfold trim. rewrite <- E'. auto.
Qed.

Lemma trim_first (v t : jsstring) (c : N) :
  trim v = c :: t -> is_space c = false.
Proof.
  unfold trim. intros H.
  destruct (trimEnd_split (trimStart v)) as (post & E & _).
  rewrite H in E. simpl in E. apply trimStart_head in E. exact E.
Qed.

(** X5.  An accepted full name is made only of ASCII letters and white
    space, begins and ends (once trimmed) with a letter, and contains at
    least two letters. *)
Theorem X5_fullName_two_letters (v : jsstring) :
  validateField host formData fullName v = None ->
  forallb (fun c => is_letter c || is_space c) v = true
  /\ (exists c mid d, trim v = c :: mid ++ [d]
                      /\ is_letter c = true /\ is_letter d = true)
  /\ (2 <= List.length (filter is_letter v))%nat.
Proof.
  unfold validateField.
  destruct (falsy (trim v)); [discriminate|].
  destruct (Nat.ltb_spec (List.length (trim v)) 2) as [L|L]; [discriminate|].
  destruct (test_whole name_pattern v) eqn:T; [|discriminate]. intros _.
  apply test_whole_Some1_Class in T as [_ T].
  destruct (trim_split v) as (pre & post & E & _ & _).
  destruct (trim v) as [|c t] eqn:Et; [simpl in L; lia|].
  destruct (exists_last (l := t)) as (mid & d & ->).
  { intros ->. simpl in L. lia. }
  assert (Hc : is_letter c = true).
  { apply trim_first in Et as Sc.
    rewrite forallb_forall in T. specialize (T c).
    rewrite Sc, orb_false_r in T. apply T. rewrite E.
    apply in_or_app. right. left. reflexivity. }
  assert (Hd : is_letter d = true).
  { assert (Sd : is_space d = false).
    { apply (trimEnd_last (trimStart v) (c :: mid)). exact Et. }
    rewrite forallb_forall in T. specialize (T d).
    rewrite Sd, orb_false_r in T. apply T. rewrite E.
    apply in_or_app. right. apply in_or_app. left.
    right. apply in_or_app. right. left. reflexivity. }
  split; [exact T|]. split; [exists c, mid, d; auto|].
  rewrite E, !filter_app. cbn [filter]. rewrite Hc, filter_app.
  cbn [filter]. rewrite Hd. rewrite !length_app. cbn [List.length].
  rewrite !length_app. cbn [List.length]. lia.
Qed.

End ValidatorMore.

(* ================================================================== *)
(** ** Change, blur and submit: which errors are displayed *)
(* ================================================================== *)

Section Handlers.

Variable host : Host.

Lemma get_set_same (A : Type) (o : Fields A) (name : FieldName) (a : A) :
  get (set o name a) name = a.
Proof. destruct name; reflexivity. Qed.

Lemma get_set_other (A : Type) (o : Fields A) (name k : FieldName) (a : A) :
  k <> name -> get (set o name a) k = get o k.
Proof. destruct name, k; intros H; try reflexivity; congruence. Qed.

Lemma get_every (A : Type) (a : A) (k : FieldName) : get (every a) k = a.
Proof. destruct k; reflexivity. Qed.

Lemma truthy_cases (fd : FormData) (name : FieldName) (v : jsstring) :
  (validateField host fd name v = None
   /\ truthy (validateField host fd name v) = false)
  \/ (validateField host fd name v <> None
      /\ truthy (validateField host fd name v) = true).
Proof.
  destruct (validateField host fd name v) as [m|] eqn:E.
  - right. split; [discriminate|]. rewrite <- E.
    apply truthy_validateField. congruence.
  - left. auto.
Qed.

(** [newErrors] after the loop holds, under each key, what [validateField]
    returned for it. *)
Lemma check_all_errors (fd : FormData) (key : FieldName) :
  get (fst (check_all host fd)) key = validateField host fd key (get fd key).
Proof.
  unfold check_all, keys. cbn [fold_left]. unfold check_key.
  destruct (truthy_cases fd fullName (get fd fullName)) as [[E1 T1]|[E1 T1]];
  destruct (truthy_cases fd email (get fd email)) as [[E2 T2]|[E2 T2]];
  destruct (truthy_cases fd password (get fd password)) as [[E3 T3]|[E3 T3]];
  destruct (truthy_cases fd confirmPassword (get fd confirmPassword))
    as [[E4 T4]|[E4 T4]];
  destruct (truthy_cases fd phone (get fd phone)) as [[E5 T5]|[E5 T5]];
  destruct (truthy_cases fd dateOfBirth (get fd dateOfBirth)) as [[E6 T6]|[E6 T6]];
  rewrite T1; cbn [fst snd]; rewrite T2; cbn [fst snd];
  rewrite T3; cbn [fst snd]; rewrite T4; cbn [fst snd];
  rewrite T5; cbn [fst snd]; rewrite T6; cbn [fst snd];
  destruct key;
  repeat first [ rewrite get_set_same
               | rewrite get_set_other by discriminate
               | rewrite get_every ];
  congruence.
Qed.

(** X6.  Leaving a field marks it touched and validates the value it
    holds against the form as rendered: afterwards its message is
    displayed exactly when that validation fails.  No other field's
    display changes, and neither the form values nor the list nor the
    stored item are touched. *)
Theorem X6_blur_displays_iff_invalid (name : FieldName) (v : jsstring)
  (s : AppState) :
  get (touched (handleBlur host name v s)) name = true
  /\ (errorShown (handleBlur host name v s) name = true <->
      validateField host (formData s) name v <> None)
  /\ (forall k, k <> name ->
        errorShown (handleBlur host name v s) k = errorShown s k)
  /\ formData (handleBlur host name v s) = formData s
  /\ users (handleBlur host name v s) = users s
  /\ registeredUsers (handleBlur host name v s) = registeredUsers s.
Proof.
  unfold errorShown, handleBlur. cbn [touched errors formData users registeredUsers].
  rewrite !get_set_same, andb_true_r, truthy_validateField.
  repeat split; try tauto.
  intros k Hk. rewrite !get_set_other by exact Hk. reflexivity.
Qed.

(** X7.  Typing into a field stores the value under that field only.  If
    the field was never left, no message is created: the errors are
    unchanged and nothing is displayed for it.  If it was, its message is
    displayed exactly when the new value fails validation against the
    form as it was before the keystroke. *)
Theorem X7_change_validates_only_touched (name : FieldName) (v : jsstring)
  (s : AppState) :
  get (formData (handleChange host name v s)) name = v
  /\ (forall k, k <> name ->
        get (formData (handleChange host name v s)) k = get (formData s) k)
  /\ touched (handleChange host name v s) = touched s
  /\ (get (touched s) name = false ->
        errors (handleChange host name v s) = errors s
        /\ errorShown (handleChange host name v s) name = false)
  /\ (get (touched s) name = true ->
        (errorShown (handleChange host name v s) name = true <->
         validateField host (formData s) name v <> None))
  /\ (forall k, k <> name ->
        errorShown (handleChange host name v s) k = errorShown s k).
Proof.
  unfold errorShown, handleChange.
  cbn [touched errors formData users registeredUsers].
  rewrite get_set_same.
  split; [reflexivity|]. split; [intros k Hk; apply get_set_other; exact Hk|].
  split; [reflexivity|]. split; [|split].
  - intros T. rewrite T. split; [reflexivity|]. apply andb_false_r.
  - intros T. rewrite T, get_set_same, andb_true_r. apply truthy_validateField.
  - intros k Hk. destruct (get (touched s) name); [|reflexivity].
    rewrite get_set_other by exact Hk. reflexivity.
Qed.

(** X8.  A confirmation that matched goes stale silently.  When the
    confirmation field holds [c], was left without error, and the password
    is then changed to something else, no message appears under the
    confirmation, although it no longer validates; the next submission
    catches it and appends nothing. *)
Theorem X8_stale_confirmation (host' : Host) (p' : jsstring) (s : AppState) :
  get (errors s) confirmPassword = None ->
  p' <> get (formData s) confirmPassword ->
  errorShown (handleChange host password p' s) confirmPassword = false
  /\ validateField host' (formData (handleChange host password p' s))
       confirmPassword (get (formData s) confirmPassword) <> None
  /\ users (handleSubmit host' (handleChange host password p' s)) = users s
  /\ registeredUsers (handleSubmit host' (handleChange host password p' s)) =
     registeredUsers s.
Proof.
  intros He Hp.
  assert (V : validateField host' (formData (handleChange host password p' s))
                confirmPassword
                (get (formData (handleChange host password p' s)) confirmPassword)
              <> None).
  { unfold handleChange. cbn [formData]. unfold validateField.
    rewrite get_set_same, get_set_other by discriminate.
    destruct (falsy (get (formData s) confirmPassword)); [discriminate|].
    destruct (eqb (get (formData s) confirmPassword) p') eqn:E;
      [|discriminate].
    apply eqb_eq in E. congruence. }
  split; [|split].
  - unfold errorShown, handleChange. cbn [errors touched].
    destruct (get (touched s) password).
    + rewrite get_set_other by discriminate. rewrite He. reflexivity.
    + rewrite He. reflexivity.
  - unfold handleChange in V |- *. cbn [formData] in V |- *.
    rewrite (get_set_other _ (formData s) password confirmPassword p') in V
      by discriminate.
    exact V.
  - destruct (handleSubmit_invalid host' (handleChange host password p' s))
      as (U & R & _).
    + intros A. apply V. apply A.
    + rewrite U, R. split; reflexivity.
Qed.

End Handlers.

(* ================================================================== *)
(** ** Submissions, deletions and the stored item over a session *)
(* ================================================================== *)

Section Session.

Lemma valid_or_not (host : Host) (fd : FormData) :
  (forall key, validateField host fd key (get fd key) = None)
  \/ ~ (forall key, validateField host fd key (get fd key) = None).
Proof.
  rewrite <- hasErrors_false_iff.
  destruct (snd (check_all host fd)); [right; discriminate | left; reflexivity].
Qed.

(** X9.  After a submission the message of a field is displayed exactly
    when that field failed validation: a refused submission marks all six
    fields touched and records every failure at once, an accepted one
    clears errors, flags and form and raises the success banner. *)
Theorem X9_submit_displays_failures (host : Host) (s : AppState) :
  (forall key,
     errorShown (handleSubmit host s) key = true <->
     validateField host (formData s) key (get (formData s) key) <> None)
  /\ ((forall key, validateField host (formData s) key (get (formData s) key) = None) ->
      formData (handleSubmit host s) = every []
      /\ touched (handleSubmit host s) = every false
      /\ showSuccess (handleSubmit host s) = true)
  /\ (~ (forall key, validateField host (formData s) key (get (formData s) key) = None) ->
      formData (handleSubmit host s) = formData s
      /\ touched (handleSubmit host s) = every true
      /\ showSuccess (handleSubmit host s) = showSuccess s).
Proof.
  split; [|split].
  - intros key. destruct (valid_or_not host (formData s)) as [V | V].
    + rewrite (handleSubmit_valid host s V). unfold errorShown.
      cbn [errors touched]. rewrite !get_every. simpl.
      split; [discriminate | intros H; elim H; apply V].
    + pose proof (check_all_errors host (formData s) key) as E.
      rewrite <- hasErrors_false_iff in V. unfold handleSubmit, errorShown.
      destruct (check_all host (formData s)) as [newErrors hasErrors].
      cbn [fst snd] in E, V. destruct hasErrors; [|congruence].
      cbn [errors touched]. rewrite get_every, andb_true_r, E.
      apply truthy_validateField.
  - intros V. rewrite (handleSubmit_valid host s V). auto.
  - intros V. rewrite <- hasErrors_false_iff in V. unfold handleSubmit.
    destruct (check_all host (formData s)) as [newErrors hasErrors].
    cbn [snd] in V. destruct hasErrors; [auto | congruence].
Qed.

Lemma empty_form_invalid (host : Host) :
  ~ (forall key, validateField host (every []) key (get (every []) key) = None).
Proof. intros H. specialize (H fullName). discriminate H. Qed.

(** X10.  Pressing submit twice records at most one user.  After an
    accepted submission the form is empty, so a second submission is
    refused whatever the clock says; after a refused one the form is as it
    was, so the same validation refuses it again. *)
Theorem X10_double_submit (host host2 : Host) (s : AppState) :
  ((forall key, validateField host (formData s) key (get (formData s) key) = None) ->
   users (handleSubmit host2 (handleSubmit host s)) = users (handleSubmit host s)
   /\ registeredUsers (handleSubmit host2 (handleSubmit host s)) =
      registeredUsers (handleSubmit host s))
  /\ users (handleSubmit host (handleSubmit host s)) = users (handleSubmit host s)
  /\ registeredUsers (handleSubmit host (handleSubmit host s)) =
     registeredUsers (handleSubmit host s).
Proof.
  assert (A : forall h2,
    (forall key, validateField host (formData s) key (get (formData s) key) = None) ->
    users (handleSubmit h2 (handleSubmit host s)) = users (handleSubmit host s)
    /\ registeredUsers (handleSubmit h2 (handleSubmit host s)) =
       registeredUsers (handleSubmit host s)).
  { intros h2 V.
    destruct (handleSubmit_invalid h2 (handleSubmit host s)) as (U & R & _).
    - rewrite (handleSubmit_valid host s V). cbn [formData].
      apply empty_form_invalid.
    - auto. }
  split; [apply A|].
  destruct (valid_or_not host (formData s)) as [V | V]; [apply A; exact V|].
  destruct (handleSubmit_invalid host s V) as (_ & _ & F).
  destruct (handleSubmit_invalid host (handleSubmit host s)) as (U & R & _).
  - rewrite F. exact V.
  - auto.
Qed.

Lemma handle_keeps_reload (host : Host) (e : event) (s : AppState) :
  loadUsers (registeredUsers s) = Returns (users_value (users s)) ->
  loadUsers (registeredUsers (handle host e s)) =
    Returns (users_value (users (handle host e s))).
Proof.
  intros H. destruct e as [name value | name value | | id]; cbn [handle].
  - exact H.
  - exact H.
  - destruct (valid_or_not host (formData s)) as [V | V].
    + rewrite (handleSubmit_valid host s V). cbn [users registeredUsers].
      apply loadUsers_stringify_users.
    + destruct (handleSubmit_invalid host s V) as (U & R & _).
      rewrite U, R. exact H.
  - unfold handleDeleteUser. cbn [users registeredUsers].
    apply loadUsers_stringify_users.
Qed.

(** X11.  The stored item mirrors the list throughout a session: if
    reloading the page would show the current list, then after any sequence
    of changes, blurs, submissions and deletions reloading still returns,
    without throwing, exactly the list then on screen. *)
Theorem X11_reload_agrees_after_session (evs : list (Host * event))
  (s : AppState) :
  loadUsers (registeredUsers s) = Returns (users_value (users s)) ->
  loadUsers (registeredUsers (run evs s)) =
    Returns (users_value (users (run evs s))).
Proof.
  revert s. induction evs as [|[host e] rest IH]; intros s H; cbn [run].
  - exact H.
  - apply IH. apply handle_keeps_reload. exact H.
Qed.

(** X12.  Deleting removes every record that carries the identifier, not
    only the first one, and nothing else: a record is listed afterwards
    exactly when it was listed before under another identifier. *)
Theorem X12_delete_removes_all_with_id (id : jsstring) (s : AppState)
  (u : UserData) :
  In u (users (handleDeleteUser id s)) <-> In u (users s) /\ User.id u <> id.
Proof.
  unfold handleDeleteUser. cbn [users]. rewrite filter_In.
  rewrite negb_true_iff. split; intros [A B]; split; try exact A.
  - intros E. apply eqb_eq in E. congruence.
  - apply not_true_is_false. intros E. apply eqb_eq in E. contradiction.
Qed.

Lemma filter_comm (A : Type) (f g : A -> bool) (l : list A) :
  filter f (filter g l) = filter g (filter f l).
Proof.
  induction l as [|a l IH]; simpl; [reflexivity|].
  destruct (f a) eqn:Ef, (g a) eqn:Eg; simpl; rewrite ?Ef, ?Eg, IH; reflexivity.
Qed.

(** X13.  Two deletions commute: the list and the stored item do not
    depend on the order in which two identifiers are deleted. *)
Theorem X13_deletes_commute (id1 id2 : jsstring) (s : AppState) :
  handleDeleteUser id1 (handleDeleteUser id2 s) =
  handleDeleteUser id2 (handleDeleteUser id1 s).
Proof.
  unfold handleDeleteUser. cbn [users showSuccess formData errors touched].
  rewrite filter_comm. reflexivity.
Qed.

(** X14.  Deleting a user right after registering it undoes the
    registration, provided no older record carries the identifier the
    clock produced: the list is the one before the submission and the
    stored item is its serialisation. *)
Theorem X14_submit_then_delete (host : Host) (s : AppState) :
  (forall key, validateField host (formData s) key (get (formData s) key) = None) ->
  (forall u, In u (users s) -> User.id u <> toString (Date_now host)) ->
  users (handleDeleteUser (toString (Date_now host)) (handleSubmit host s)) =
    users s
  /\ registeredUsers
       (handleDeleteUser (toString (Date_now host)) (handleSubmit host s)) =
     Some (stringify_users (users s)).
Proof.
  intros V F. rewrite (handleSubmit_valid host s V).
  unfold handleDeleteUser. cbn [users registeredUsers].
  rewrite filter_app. cbn [filter newUser User.id].
  pose proof (filter_id_absent _ _ F) as K.
  assert (E : eqb (toString (Date_now host)) (toString (Date_now host)) = true)
    by (apply eqb_eq; reflexivity).
  rewrite E. cbn [negb]. rewrite app_nil_r.
  split; [exact K | f_equal; f_equal; exact K].
Qed.

Lemma js_inj (a b : string) : js a = js b -> a = b.
Proof.
  unfold js. intros H.
  rewrite <- (string_of_list_ascii_of_string a),
          <- (string_of_list_ascii_of_string b).
  f_equal. revert H.
  generalize (list_ascii_of_string a) (list_ascii_of_string b).
  induction l as [|x l IH]; intros [|y l']; simpl; intros H;
    try discriminate; [reflexivity|].
  inversion H as [[Hx Hl]]. f_equal; [|apply IH; exact Hl].
  rewrite <- (ascii_N_embedding x), <- (ascii_N_embedding y), Hx. reflexivity.
Qed.

Lemma to_int_not_nil (z : Z) :
  Z.to_int z <> Decimal.Pos Decimal.Nil /\ Z.to_int z <> Decimal.Neg Decimal.Nil.
Proof.
  destruct z as [|p|p]; simpl; split; intros H; inversion H as [E];
    try discriminate; exact (Unsigned.to_uint_nonnil p E).
Qed.

Lemma toString_inj (a b : Z) : toString a = toString b -> a = b.
Proof.
  unfold toString. intros H. apply js_inj in H.
  apply DecimalZ.to_int_inj.
  destruct (to_int_not_nil a) as [A1 A2], (to_int_not_nil b) as [B1 B2].
  pose proof (NilZero.isi (Z.to_int a) A1 A2) as Ia.
  pose proof (NilZero.isi (Z.to_int b) B1 B2) as Ib.
  rewrite H in Ia. congruence.
Qed.

(** X15.  Identifiers are as unique as the clock: two new records get
    the same identifier exactly when [Date.now()] returned the same number
    for both, whatever was typed. *)
Theorem X15_same_id_iff_same_clock (host1 host2 : Host) (fd1 fd2 : FormData) :
  User.id (newUser host1 fd1) = User.id (newUser host2 fd2) <->
  Date_now host1 = Date_now host2.
Proof.
  cbn [newUser User.id]. split.
  - apply toString_inj.
  - intros ->. reflexivity.
Qed.

Lemma map_user_value_inj (l1 l2 : list UserData) :
  map user_value l1 = map user_value l2 -> l1 = l2.
Proof.
  revert l2. induction l1 as [|u l1 IH]; intros [|v l2]; simpl; intros H;
    try discriminate; [reflexivity|].
  pose proof (f_equal (@List.hd json JNull) H) as Hu.
  pose proof (f_equal (@List.tl json) H) as Hl. cbn [List.hd List.tl] in Hu, Hl.
  f_equal; [apply user_value_inj; exact Hu | auto].
Qed.

(** X16.  The stored text determines the list: two lists of records with
    the same serialisation are the same list, so nothing is lost or merged
    by storing. *)
Theorem X16_stored_text_determines_list (l1 l2 : list UserData) :
  stringify_users l1 = stringify_users l2 <-> l1 = l2.
Proof.
  split; [|intros ->; reflexivity].
  intros H. apply map_user_value_inj.
  pose proof (parse_stringify_users l1) as P1.
  pose proof (parse_stringify_users l2) as P2.
  rewrite H in P1. unfold users_value in *. congruence.
Qed.

Lemma wellFormed_newUser (host : Host) (fd : FormData) :
  (forall key, validateField host fd key (get fd key) = None) ->
  wellFormed (newUser host fd).
Proof.
  intros V host' fd'. cbn [newUser User.fullName User.email User.phone].
  split; [|split].
  - exact (V fullName).
  - exact (V email).
  - exact (V phone).
Qed.

Lemma handle_keeps_wellFormed (host : Host) (e : event) (s : AppState) :
  (forall u, In u (users s) -> wellFormed u) ->
  forall u, In u (users (handle host e s)) -> wellFormed u.
Proof.
  intros H u. destruct e as [name value | name value | | id]; cbn [handle].
  - apply H.
  - apply H.
  - destruct (valid_or_not host (formData s)) as [V | V].
    + rewrite (handleSubmit_valid host s V). cbn [users]. intros Hin.
      apply in_app_or in Hin as [Hin | [<- | []]]; [apply H; exact Hin|].
      apply wellFormed_newUser. exact V.
    + destruct (handleSubmit_invalid host s V) as (U & _). rewrite U. apply H.
  - unfold handleDeleteUser. cbn [users]. intros Hin.
    apply filter_In in Hin as [Hin _]. apply H. exact Hin.
Qed.

(** X17.  Only validated data enters the list: if every record listed at
    the start has a name, an e-mail address and a phone number that pass
    validation, so has every record listed after any session. *)
Theorem X17_session_keeps_records_valid (evs : list (Host * event))
  (s : AppState) :
  (forall u, In u (users s) -> wellFormed u) ->
  forall u, In u (users (run evs s)) -> wellFormed u.
Proof.
  revert s. induction evs as [|[host e] rest IH]; intros s H; cbn [run].
  - exact H.
  - apply IH. apply handle_keeps_wellFormed. exact H.
Qed.

Lemma run_fillForm (clock : FieldName -> Host) (fd : FormData) (s : AppState) :
  formData (run (fillForm clock fd) s) = fd
  /\ users (run (fillForm clock fd) s) = users s
  /\ registeredUsers (run (fillForm clock fd) s) = registeredUsers s.
Proof.
  unfold fillForm, keys. cbn [map run handle]. unfold handleChange.
  cbn [formData users registeredUsers].
  destruct fd. cbn [get set at_fullName at_email at_password
                      at_confirmPassword at_phone at_dateOfBirth].
  auto.
Qed.

(** X18.  Filling in the six inputs and submitting registers what was
    typed: from any state, typing a form that passes validation and
    pressing submit appends exactly the record made from the typed values,
    whatever the form held or displayed before. *)
Theorem X18_fill_then_submit (clock : FieldName -> Host) (host : Host)
  (fd : FormData) (s : AppState) :
  (forall key, validateField host fd key (get fd key) = None) ->
  users (run (fillForm clock fd ++ [(host, Submit)]) s) =
    users s ++ [newUser host fd]
  /\ registeredUsers (run (fillForm clock fd ++ [(host, Submit)]) s) =
     Some (stringify_users (users s ++ [newUser host fd])).
Proof.
  intros V.
  assert (R : forall a b t, run (a ++ b) t = run b (run a t)).
  { induction a as [|[h e] a IH]; intros b t; cbn [app run]; auto. }
  rewrite R. cbn [run handle].
  destruct (run_fillForm clock fd s) as (F & U & _).
  rewrite handleSubmit_valid by (rewrite F; exact V).
  cbn [users registeredUsers]. rewrite F, U. auto.
Qed.

End Session.

(* ================================================================== *)
(** ** The further theorems at concrete inputs *)
(* ================================================================== *)

Section MoreExamples.

Lemma X2_email_one_at_no_space_witness :
  count_occ N.eq_dec (js "a@b.com") 64%N = 1%nat
  /\ forallb (fun c => negb (is_space c)) (js "a@b.com") = true.
Proof.
  apply (X2_email_one_at_no_space exampleHost exampleForm (js "a@b.com")).
  vm_compute. reflexivity.
Defined.

Lemma X5_fullName_two_letters_witness :
  forallb (fun c => is_letter c || is_space c) (js " Jo ") = true
  /\ (exists c mid d, trim (js " Jo ") = c :: mid ++ [d]
                      /\ is_letter c = true /\ is_letter d = true)
  /\ (2 <= List.length (filter is_letter (js " Jo ")))%nat.
Proof.
  apply (X5_fullName_two_letters exampleHost exampleForm (js " Jo ")).
  vm_compute. reflexivity.
Defined.

Lemma X8_stale_confirmation_witness :
  errorShown (handleChange exampleHost password (js "Other123!")
                (formState [exampleUser] exampleForm)) confirmPassword = false
  /\ validateField exampleHost
       (formData (handleChange exampleHost password (js "Other123!")
                    (formState [exampleUser] exampleForm)))
       confirmPassword
       (get (formData (formState [exampleUser] exampleForm)) confirmPassword) <> None
  /\ users (handleSubmit exampleHost
              (handleChange exampleHost password (js "Other123!")
                 (formState [exampleUser] exampleForm))) =
     users (formState [exampleUser] exampleForm)
  /\ registeredUsers (handleSubmit exampleHost
              (handleChange exampleHost password (js "Other123!")
                 (formState [exampleUser] exampleForm))) =
     registeredUsers (formState [exampleUser] exampleForm).
Proof.
  apply (X8_stale_confirmation exampleHost exampleHost (js "Other123!")
           (formState [exampleUser] exampleForm)).
  - reflexivity.
  - vm_compute. discriminate.
Defined.

Lemma X11_reload_agrees_after_session_witness :
  loadUsers (registeredUsers
    (run (fillForm (fun _ => exampleHost) exampleForm
          ++ [(exampleHost, Submit); (exampleHost, Delete (js "1"))])
       (initialState None))) =
  Returns (users_value (users
    (run (fillForm (fun _ => exampleHost) exampleForm
          ++ [(exampleHost, Submit); (exampleHost, Delete (js "1"))])
       (initialState None)))).
Proof.
  apply (X11_reload_agrees_after_session
           (fillForm (fun _ => exampleHost) exampleForm
            ++ [(exampleHost, Submit); (exampleHost, Delete (js "1"))])
           (initialState None)).
  reflexivity.
Defined.

Lemma X14_submit_then_delete_witness :
  users (handleDeleteUser (toString (Date_now exampleHost))
           (handleSubmit exampleHost (formState [exampleUser] exampleForm))) =
    users (formState [exampleUser] exampleForm)
  /\ registeredUsers
       (handleDeleteUser (toString (Date_now exampleHost))
          (handleSubmit exampleHost (formState [exampleUser] exampleForm))) =
     Some (stringify_users (users (formState [exampleUser] exampleForm))).
Proof.
  apply (X14_submit_then_delete exampleHost (formState [exampleUser] exampleForm)).
  - intros key. destruct key; vm_compute; reflexivity.
  - intros u [<- | []]. vm_compute. discriminate.
Defined.

Lemma X17_session_keeps_records_valid_witness :
  validateField exampleHost exampleForm fullName
    (User.fullName (newUser exampleHost exampleForm)) = None
  /\ validateField exampleHost exampleForm email
       (User.email (newUser exampleHost exampleForm)) = None
  /\ validateField exampleHost exampleForm phone
       (User.phone (newUser exampleHost exampleForm)) = None.
Proof.
  apply (X17_session_keeps_records_valid [(exampleHost, Submit)]
           (formState [exampleUser] exampleForm)).
  - intros u [<- | []] host fd. vm_compute. auto.
  - vm_compute. right. left. reflexivity.
Defined.

Lemma X18_fill_then_submit_witness :
  users (run (fillForm (fun _ => exampleHost) exampleForm
              ++ [(exampleHost, Submit)])
           (formState [exampleUser] weakPasswordForm)) =
    users (formState [exampleUser] weakPasswordForm)
    ++ [newUser exampleHost exampleForm]
  /\ registeredUsers
       (run (fillForm (fun _ => exampleHost) exampleForm
             ++ [(exampleHost, Submit)])
          (formState [exampleUser] weakPasswordForm)) =
     Some (stringify_users
             (users (formState [exampleUser] weakPasswordForm)
              ++ [newUser exampleHost exampleForm])).
Proof.
  apply (X18_fill_then_submit (fun _ => exampleHost) exampleHost exampleForm
           (formState [exampleUser] weakPasswordForm)).
  intros key. destruct key; vm_compute; reflexivity.
Defined.

End MoreExamples.
